(** * ChatStreamAI: the streaming chat session service of [main.py]

    A shallow embedding of the session core of [main.py]: the transcript
    store ([save_chat_history], [load_chat_history]), the context budgeter
    ([_limit_context_by_chars]), session creation ([create_session]), the
    snapshot endpoint ([save_chat_session_manually]) and the WebSocket
    session handler ([websocket_endpoint]) with its helper
    [send_ws_message].

    Conventions of the embedding.
    - Python values that travel through [json] (transcripts on disk, client
      frames) are trees of type [json]; a Python [dict] with string keys is
      a [gmap string json], a Python [list] a Rocq [list].
    - A Python [str] is a [string]; [len] of a string is its number of
      characters, each [ascii] standing for one character.
    - Code that can raise returns a [result]; a [try]/[except] is a match
      on the result.
    - The text of a file or frame is represented by what [json.load] makes
      of it ([wire]): the serializer and parser of the [json] module are
      library code and are taken to be inverse to each other.
    - Everything the handler obtains from outside (client frames, the
      clock, the upstream model, the outcome of file operations) is an
      explicit input.
    - Of Starlette's WebSocket the model keeps what the handler relies on:
      [receive_text] raises [WebSocketDisconnect] on the disconnect message
      and [RuntimeError] after it, a send on a dropped connection raises,
      and [iter_json] receives and parses frames until the disconnect.
    - [logging] is at level INFO: [logger.debug] lines leave no trace and
      are omitted; the other lines are recorded by their fixed text. *)

From stdpp Require Import gmap strings list fin_maps pretty.
From Stdlib Require Import ZArith Lia.

Open Scope Z_scope.

(** ** Python values and exceptions *)

#[warnings="-register-all"]
Inductive json : Type :=
  | JNull
  | JBool (b : bool)
  | JInt (n : Z)
  | JFloat (mantissa exponent : Z)
  | JStr (s : string)
  | JArr (items : list json)
  | JObj (fields : gmap string json).

(** The exception classes the code distinguishes. [ValidationError]
    carries the text [str(e)] that pydantic gives it, [APIStatusError] its
    [status_code]; [APIConnectionError], [RateLimitError] and
    [APIStatusError] are the [openai] classes named in the handler. *)
Inductive exn : Type :=
  | TypeError
  | KeyError
  | IOError
  | JSONDecodeError
  | ValidationError (report : string)
  | RuntimeError
  | WebSocketDisconnect
  | APIConnectionError
  | RateLimitError
  | APIStatusError (status_code : Z)
  | HTTPException (status_code : Z) (detail : string)
  | OtherException.

Inductive result (A : Type) : Type :=
  | Ok (a : A)
  | Raise (e : exn).
Arguments Ok {A} a.
Arguments Raise {A} e.

#[global] Instance result_ret : MRet result := λ A a, Ok a.
#[global] Instance result_bind : MBind result := λ A B f r,
  match r with
  | Ok a => f a
  | Raise e => Raise e
  end.

(** A message of a transcript is a Python dict. *)
Abbreviation Message := (gmap string json).

Definition str_len (s : string) : Z := Z.of_nat (String.length s).

(** Python's [len]: defined on strings, lists and dicts, [TypeError]
    on [None], booleans and numbers. *)
Definition py_len (v : json) : result Z :=
  match v with
  | JStr s => Ok (str_len s)
  | JArr items => Ok (Z.of_nat (length items))
  | JObj fields => Ok (Z.of_nat (size fields))
  | JNull | JBool _ | JInt _ | JFloat _ _ => Raise TypeError
  end.

(** [len(msg.get("content", ""))] *)
Definition content_len (msg : Message) : result Z :=
  py_len (default (JStr "") (msg !! "content")).

(** [sum(len(msg.get("content", "")) for msg in history)] *)
Fixpoint sum_content_len (history : list Message) : result Z :=
  match history with
  | [] => Ok 0
  | msg :: history' =>
      n ← content_len msg;
      total ← sum_content_len history';
      Ok (n + total)
  end.

(** ** Context budgeter: [_limit_context_by_chars] *)

Definition MAX_CONTEXT_CHARS : Z := 300000.
Definition DEFAULT_MODEL : string := "gpt-4.1-2025-04-14".

Definition system_message (system_prompt : string) : Message :=
  {[ "role" := JStr "system"; "content" := JStr system_prompt ]}.

(** The [while] loop of [_limit_context_by_chars]. [working_messages] is
    the system message followed by [rest]; [working_messages.pop(1)]
    removes the head of [rest], and [len(working_messages) > 1] says that
    [rest] is not empty. The loop returns the surviving conversational
    messages and the final [current_chars]. *)
Fixpoint trim_loop (max_chars : Z) (rest : list Message) (current_chars : Z)
    : result (list Message * Z) :=
  match rest with
  | [] => Ok ([], current_chars)
  | removed_message :: rest' =>
      if bool_decide (current_chars > max_chars) then
        removed_len ← content_len removed_message;
        trim_loop max_chars rest' (current_chars - removed_len)
      else Ok (rest, current_chars)
  end.

(** [working_messages = [system_message] + history] is a fresh list, so
    popping from it leaves the caller's [history] untouched. *)
Definition _limit_context_by_chars
    (system_prompt : string) (history : list Message) (max_chars : Z)
    (model_name : string) : result (list Message) :=
  history_chars ← sum_content_len history;
  let current_chars := str_len system_prompt + history_chars in
  if bool_decide (current_chars <= max_chars) then
    Ok (system_message system_prompt :: history)
  else
    '(rest, _) ← trim_loop max_chars history current_chars;
    Ok (system_message system_prompt :: rest).

(** A history on which [len] never raises: every message's content is
    absent, a string, or another sized value. *)
Definition has_len (msg : Message) : bool :=
  match content_len msg with
  | Ok _ => true
  | Raise _ => false
  end.

(** ** The world the service runs in *)

(** File and frame text, as [json.load]/[json.loads] classify it: text
    that parses to a value (in particular whatever [json.dump] wrote for
    that value), or text the parser rejects with [JSONDecodeError]. *)
Inductive wire : Type :=
  | JsonText (v : json)
  | NotJson (raw : string).

Inductive WebSocketState : Type := CONNECTING | CONNECTED | DISCONNECTED.

#[global] Instance WebSocketState_eq_dec : EqDecision WebSocketState.
Proof. solve_decision. Defined.

Record ChatMessage : Type := { cm_role : string; cm_content : string }.

(** [WebSocketResponse]; [model_dump(exclude_none=True)] sends exactly the
    fields that are [Some]. *)
Record WebSocketResponse : Type := {
  type : string;
  content : option string;
  role : option string;
  messages : option (list ChatMessage);
  detail : option string;
}.

Definition stream_response (chunk_content : string) : WebSocketResponse :=
  {| type := "stream"; content := Some chunk_content; role := None;
     messages := None; detail := None |}.

Definition error_response (text : string) : WebSocketResponse :=
  {| type := "error"; content := None; role := None;
     messages := None; detail := Some text |}.

(** The server side of one WebSocket.
    - [client_state]: Starlette's view of the client, [DISCONNECTED] once
      a disconnect message has been received.
    - [delivered]: the envelopes handed to the transport, oldest first.
    - [link]: how many further envelopes the transport still carries
      before the client is gone ([None]: no such limit). With [Some 0] the
      connection has dropped: sending raises and the next receive yields
      the disconnect message.
    - [close_code]: the code of the server's [close], if it closed. *)
Record WebSocket : Type := {
  client_state : WebSocketState;
  delivered : list WebSocketResponse;
  link : option nat;
  close_code : option Z;
}.

Inductive level : Type := INFO | WARNING | ERROR.

Record world : Type := {
  fs : gmap string wire;
  active_connections : gmap string nat;
  sock : WebSocket;
  upstream_calls : list (list Message);
  log : list (level * string);
}.

Definition set_fs (f : gmap string wire → gmap string wire) (w : world) : world :=
  {| fs := f (fs w); active_connections := active_connections w; sock := sock w;
     upstream_calls := upstream_calls w; log := log w |}.
Definition set_active_connections (f : gmap string nat → gmap string nat)
    (w : world) : world :=
  {| fs := fs w; active_connections := f (active_connections w); sock := sock w;
     upstream_calls := upstream_calls w; log := log w |}.
Definition set_sock (f : WebSocket → WebSocket) (w : world) : world :=
  {| fs := fs w; active_connections := active_connections w; sock := f (sock w);
     upstream_calls := upstream_calls w; log := log w |}.
Definition set_upstream_calls (f : list (list Message) → list (list Message))
    (w : world) : world :=
  {| fs := fs w; active_connections := active_connections w; sock := sock w;
     upstream_calls := f (upstream_calls w); log := log w |}.
Definition set_log (f : list (level * string) → list (level * string))
    (w : world) : world :=
  {| fs := fs w; active_connections := active_connections w; sock := sock w;
     upstream_calls := upstream_calls w; log := f (log w) |}.

(** ** Effects: state and exceptions *)

Definition M (A : Type) : Type := world → result A * world.

Definition ret {A} (a : A) : M A := λ w, (Ok a, w).
Definition raise {A} (e : exn) : M A := λ w, (Raise e, w).
Definition bind {A B} (m : M A) (k : A → M B) : M B := λ w,
  match m w with
  | (Ok a, w') => k a w'
  | (Raise e, w') => (Raise e, w')
  end.
(** [try: body except ...: handler] *)
Definition try_except {A} (body : M A) (handler : exn → M A) : M A := λ w,
  match body w with
  | (Ok a, w') => (Ok a, w')
  | (Raise e, w') => handler e w'
  end.
Definition get {A} (proj : world → A) : M A := λ w, (Ok (proj w), w).
Definition modify (f : world → world) : M unit := λ w, (Ok tt, f w).
Definition lift {A} (r : result A) : M A := λ w, (r, w).

Declare Scope py_scope.
Delimit Scope py_scope with py.
Notation "x <- m ;; k" := (bind m (λ x, k))
  (at level 100, m at next level, right associativity) : py_scope.
Notation "m ;; k" := (bind m (λ _, k))
  (at level 100, right associativity) : py_scope.
Open Scope py_scope.

Definition logger (lvl : level) (msg : string) : M unit :=
  modify (set_log (λ l, l ++ [(lvl, msg)])).

(** ** Transcript store: [save_chat_history], [load_chat_history] *)

Definition CHAT_DIR : string := "chat_history".

(** [CHAT_DIR / f"{session_id}.json"] *)
Definition chat_path (session_id : string) : string :=
  CHAT_DIR +:+ "/" +:+ session_id +:+ ".json".

(** How the operating system answers [open(file_path, "w")] followed by
    [json.dump]: all is written; [open] raises and the file is untouched;
    or the dump raises after [open] truncated the file, leaving a
    fragment (which is never a complete document). *)
Inductive write_outcome : Type :=
  | WriteOk
  | OpenFails (e : exn)
  | DumpFails (e : exn) (fragment : string).

(** How it answers [open(file_path, "r")] and the read. *)
Inductive read_outcome : Type :=
  | ReadOk
  | ReadFails (e : exn).

Definition write_json (io : write_outcome) (file_path : string) (v : json)
    : M unit :=
  match io with
  | WriteOk => modify (set_fs (<[file_path := JsonText v]>))
  | OpenFails e => raise e
  | DumpFails e fragment =>
      modify (set_fs (<[file_path := NotJson fragment]>));; raise e
  end.

Definition read_json (io : read_outcome) (file_path : string) : M json :=
  match io with
  | ReadFails e => raise e
  | ReadOk =>
      files <- get fs;;
      match files !! file_path with
      | None => raise IOError
      | Some (NotJson _) => raise JSONDecodeError
      | Some (JsonText v) => ret v
      end
  end.

Definition save_chat_history (io : write_outcome) (session_id : string)
    (messages : list Message) : M unit :=
  let file_path := chat_path session_id in
  try_except
    (write_json io file_path (JArr (JObj <$> messages));;
     ret tt)
    (λ e,
      match e with
      | IOError => logger ERROR "Error saving chat history"
      | _ => logger ERROR "Unexpected error saving chat history"
      end).

(** [isinstance(msg, dict) and 'role' in msg and 'content' in msg] *)
Definition is_message_dict (v : json) : bool :=
  match v with
  | JObj msg =>
      bool_decide (is_Some (msg !! "role"))
      && bool_decide (is_Some (msg !! "content"))
  | _ => false
  end.

(** The list elements that are dicts; on a history that passed the
    validation these are all its elements. *)
Definition dicts (items : list json) : list Message :=
  omap (λ v, match v with JObj msg => Some msg | _ => None end) items.

Definition load_chat_history (io : read_outcome) (session_id : string)
    : M (list Message) :=
  let file_path := chat_path session_id in
  files <- get fs;;
  if negb (bool_decide (is_Some (files !! file_path))) then
    logger WARNING "No live chat history found";;
    ret []
  else
    try_except
      (history <- read_json io file_path;;
       match history with
       | JArr items =>
           if negb (forallb is_message_dict items) then
             logger ERROR "Invalid format in chat history file";;
             ret []
           else ret (dicts items)
       | _ =>
           logger ERROR "Invalid format in chat history file";;
           ret []
       end)
      (λ e,
        match e with
        | IOError | JSONDecodeError =>
            logger ERROR "Error loading live chat history";;
            ret []
        | _ =>
            logger ERROR "Unexpected error loading live chat history";;
            ret []
        end).

(** ** Session creation: [create_session] *)

(** [fresh_uuid] is [str(uuid.uuid4())]. The result is the body of the
    201 response; an [HTTPException] is the 500 response. *)
Definition create_session (fresh_uuid : string) (io : write_outcome)
    : M Message :=
  let session_id := fresh_uuid in
  try_except
    (save_chat_history io session_id [];;
     logger INFO "New chat session created";;
     ret ({[ "session_id" := JStr session_id ]} : Message))
    (λ e,
      logger ERROR "Failed to initialize session history";;
      raise (HTTPException 500 "Could not create chat session.")).

(** ** The WebSocket and [send_ws_message] *)

(** What the client does next: send a text frame, or close. *)
Inductive frame : Type :=
  | FText (text : wire)
  | FDisconnect.

Definition set_client_state (st : WebSocketState) (s : WebSocket) : WebSocket :=
  {| client_state := st; delivered := delivered s; link := link s;
     close_code := close_code s |}.
Definition set_close_code (code : Z) (s : WebSocket) : WebSocket :=
  {| client_state := client_state s; delivered := delivered s; link := link s;
     close_code := Some code |}.
Definition deliver (msg : WebSocketResponse) (s : WebSocket) : WebSocket :=
  {| client_state := client_state s; delivered := delivered s ++ [msg];
     link := pred <$> link s; close_code := close_code s |}.
(** From now on the transport carries [k] more envelopes, when [cut] is
    [Some k]. *)
Definition schedule (cut : option nat) (s : WebSocket) : WebSocket :=
  {| client_state := client_state s; delivered := delivered s;
     link := match cut with Some k => Some k | None => link s end;
     close_code := close_code s |}.

(** [websocket.receive_text()]: [RuntimeError] once a disconnect has been
    received; the disconnect message (from a client that closed or a
    connection that dropped) marks the client [DISCONNECTED] and raises
    [WebSocketDisconnect]. [cut] is what the transport does after this
    frame has arrived: with [Some k] the connection drops once [k] more
    envelopes have been carried to the client. *)
Definition receive_text (fr : frame) (cut : option nat) : M wire :=
  s <- get sock;;
  if bool_decide (client_state s ≠ CONNECTED) then raise RuntimeError
  else
    match link s, fr with
    | Some O, _ | _, FDisconnect =>
        modify (set_sock (set_client_state DISCONNECTED));;
        raise WebSocketDisconnect
    | _, FText text => modify (set_sock (schedule cut));; ret text
    end.

(** [json.loads] *)
Definition json_loads (text : wire) : result json :=
  match text with
  | JsonText v => Ok v
  | NotJson _ => Raise JSONDecodeError
  end.

(** [websocket.send_json(...)]: on a dropped connection nothing is
    delivered and the call raises. *)
Definition send_json (msg : WebSocketResponse) : M unit :=
  s <- get sock;;
  match link s with
  | Some O => raise WebSocketDisconnect
  | _ => modify (set_sock (deliver msg))
  end.

(** Every exception of the send is caught and logged. (For a
    [RuntimeError] the text of the exception only selects the level of
    the log line.) *)
Definition send_ws_message (message : WebSocketResponse) : M unit :=
  try_except
    (s <- get sock;;
     if bool_decide (client_state s = CONNECTED) then send_json message
     else ret tt)
    (λ e,
      match e with
      | WebSocketDisconnect =>
          logger WARNING "Client disconnected before message could be sent"
      | RuntimeError =>
          logger ERROR "Runtime error sending WebSocket message"
      | _ => logger ERROR "Unexpected error sending WebSocket message"
      end).

(** [websocket.close(code)] *)
Definition close (code : Z) : M unit :=
  modify (set_sock (set_close_code code)).

(** ** Requests and the upstream stream *)

(** [WebSocketRequest] *)
Record WebSocketRequest : Type := {
  request_type : string;
  request_content : option string;
}.

(** [WebSocketRequest.model_validate(data)]: [data] must be a dict whose
    ["type"] is a string and whose ["content"] is absent, [None] or a
    string; other keys are ignored. [report] is the text pydantic gives
    the error. *)
Definition model_validate (report : string) (data : json)
    : result WebSocketRequest :=
  match data with
  | JObj fields =>
      match fields !! "type" with
      | Some (JStr t) =>
          match fields !! "content" with
          | None | Some JNull =>
              Ok {| request_type := t; request_content := None |}
          | Some (JStr c) =>
              Ok {| request_type := t; request_content := Some c |}
          | Some _ => Raise (ValidationError report)
          end
      | _ => Raise (ValidationError report)
      end
  | _ => Raise (ValidationError report)
  end.

(** The parts of a streamed completion chunk the handler reads. *)
Record ChoiceDelta : Type := { delta_content : option string }.
Record Choice : Type := { delta : option ChoiceDelta }.
Record ChatCompletionChunk : Type := { choices : list Choice }.

(** One upstream call: the chunks the stream yields, then a normal end
    ([failure = None]) or an exception. An exception of [create] itself is
    a run with no chunks. *)
Record upstream_run : Type := {
  chunks : list ChatCompletionChunk;
  failure : option exn;
}.

(** [chunk.choices and chunk.choices[0].delta and
    chunk.choices[0].delta.content is not None] *)
Definition chunk_content (chunk : ChatCompletionChunk) : option string :=
  match choices chunk with
  | [] => None
  | choice :: _ => d ← delta choice; delta_content d
  end.

(** One pass through the body of [while True]: the client's next step and
    what the outside answers while the handler processes it. *)
Record event : Type := {
  incoming : frame;
  drops_after : option nat;
  validation_report : string;
  now : string;
  upstream : upstream_run;
  disk : write_outcome;
}.

Definition user_message (text : string) : Message :=
  {[ "role" := JStr "user"; "content" := JStr text ]}.
Definition assistant_message (text : string) : Message :=
  {[ "role" := JStr "assistant"; "content" := JStr text ]}.

(** [m['content']] or [m['type']] on a parsed value *)
Definition subscript (v : json) (key : string) : result json :=
  match v with
  | JObj fields =>
      match fields !! key with
      | Some x => Ok x
      | None => Raise KeyError
      end
  | _ => Raise TypeError
  end.

(** [sum(len(m['content']) for m in api_messages_to_send)] of the log
    line before the upstream call *)
Fixpoint sum_len_content (msgs : list Message) : result Z :=
  match msgs with
  | [] => Ok 0
  | m :: more =>
      c ← subscript (JObj m) "content";
      n ← py_len c;
      total ← sum_len_content more;
      Ok (n + total)
  end.

(** The [for chunk in response_stream] loop. *)
Fixpoint relay (stream : list ChatCompletionChunk)
    (assistant_response_content : string) : M string :=
  match stream with
  | [] => ret assistant_response_content
  | chunk :: more =>
      match chunk_content chunk with
      | Some chunk_content =>
          send_ws_message (stream_response chunk_content);;
          relay more (assistant_response_content +:+ chunk_content)
      | None => relay more assistant_response_content
      end
  end.

(** The [try] block around the upstream call. Its result is the value of
    [assistant_response_content] when the block is left, and the
    exception that left it, if any. *)
Definition stream_turn (run : upstream_run)
    (api_messages_to_send api_messages : list Message)
    : M (string * option exn) :=
  match sum_len_content api_messages_to_send with
  | Raise e => ret ("", Some e)
  | Ok _ =>
      logger INFO "Sending request to OpenAI";;
      modify (set_upstream_calls (λ calls, calls ++ [api_messages]));;
      assistant_response_content <- relay (chunks run) "";;
      match failure run with
      | Some e => ret (assistant_response_content, Some e)
      | None =>
          send_ws_message (stream_response "[DONE]");;
          logger INFO "Successfully streamed response";;
          ret (assistant_response_content, None)
      end
  end.

(** The [except] clauses of that block. *)
Definition upstream_failed (e : exn) : M unit :=
  match e with
  | APIConnectionError =>
      logger ERROR "OpenAI API Connection Error";;
      send_ws_message (error_response "Could not connect to AI service.")
  | RateLimitError =>
      logger WARNING "OpenAI Rate Limit Error";;
      send_ws_message (error_response
        "AI service is temporarily overloaded. Please try again later.")
  | APIStatusError status_code =>
      logger ERROR "OpenAI API Status Error";;
      send_ws_message (error_response
        ("AI service error (Status: " +:+ pretty status_code
         +:+ "). Please try again."))
  | _ =>
      logger ERROR "Error during OpenAI call or streaming";;
      send_ws_message (error_response
        "An unexpected error occurred while communicating with the AI.")
  end.

(** [[msg async for msg in websocket.iter_json()]]: receives and parses
    client frames until the client disconnects. *)
Fixpoint iter_json (frames : list frame) : M (list json) :=
  let receive_json fr :=
    try_except
      (text <- receive_text fr None;;
       v <- lift (json_loads text);;
       ret (Some v))
      (λ e,
        match e with
        | WebSocketDisconnect => ret None
        | _ => raise e
        end) in
  match frames with
  | [] => _ <- receive_json FDisconnect;; ret []
  | fr :: more =>
      r <- receive_json fr;;
      match r with
      | None => ret []
      | Some v => vs <- iter_json more;; ret (v :: vs)
      end
  end.

(** [any(m['type'] == 'error' for m in msgs)] *)
Fixpoint any_type_error (msgs : list json) : result bool :=
  match msgs with
  | [] => Ok false
  | m :: more =>
      t ← subscript m "type";
      match t with
      | JStr "error" => Ok true
      | _ => any_type_error more
      end
  end.

(** ** The session coordinator: [websocket_endpoint] *)

(** How one pass through the loop body ends: at the top of the loop again
    ([continue], or the end of the body) with the [messages] list as it
    now is, or out of the loop ([break]). *)
Inductive control : Type :=
  | Continue (messages : list Message)
  | Break.

(** [f"You are a helpful assistant. The current date and time is:
    {current_time}."] *)
Definition system_prompt_at (current_time : string) : string :=
  "You are a helpful assistant. The current date and time is: "
  +:+ current_time +:+ ".".

(** The branch [request_data.type == "chat_message" and
    request_data.content] of the loop body. [api_messages_to_send] is
    computed and only measured for the log line; the list passed to
    [client.chat.completions.create] is [api_messages]. [messages] is
    appended to in place, so every later use sees the new elements. *)
Definition chat_turn (session_id : string) (messages : list Message)
    (user_message_content : string) (ev : event) (later : list frame)
    : M control :=
  let messages := messages ++ [user_message user_message_content] in
  let system_prompt := system_prompt_at (now ev) in
  api_messages_to_send <-
    lift (_limit_context_by_chars system_prompt messages MAX_CONTEXT_CHARS
            DEFAULT_MODEL);;
  let api_messages := system_message system_prompt :: messages in
  left_with <- stream_turn (upstream ev) api_messages_to_send api_messages;;
  let '(assistant_response_content, raised) := left_with in
  match raised with
  | Some e => upstream_failed e
  | None => ret tt
  end;;
  if negb (String.eqb assistant_response_content "") then
    let messages := messages ++ [assistant_message assistant_response_content] in
    save_chat_history (disk ev) session_id messages;;
    ret (Continue messages)
  else
    received <- iter_json later;;
    error_seen <- lift (any_type_error received);;
    (if negb error_seen then logger WARNING "OpenAI response was empty"
     else ret tt);;
    ret (Continue messages).

(** The body of [while True]. [later] are the client's steps after this
    one. *)
Definition iteration (session_id : string) (messages : list Message)
    (ev : event) (later : list frame) : M control :=
  received <-
    try_except
      (raw_data <- receive_text (incoming ev) (drops_after ev);;
       data <- lift (json_loads raw_data);;
       request_data <- lift (model_validate (validation_report ev) data);;
       ret (inr request_data))
      (λ e,
        match e with
        | WebSocketDisconnect =>
            logger INFO "WebSocket disconnected (client closed)";;
            ret (inl Break)
        | JSONDecodeError =>
            logger WARNING "Received invalid JSON";;
            send_ws_message (error_response "Invalid JSON format.");;
            ret (inl (Continue messages))
        | ValidationError report =>
            logger WARNING "Received invalid message structure";;
            send_ws_message
              (error_response ("Invalid message structure: " +:+ report));;
            ret (inl (Continue messages))
        | _ =>
            logger ERROR "Error receiving/parsing message";;
            send_ws_message
              (error_response "Server error processing your request.");;
            ret (inl Break)
        end);;
  match received with
  | inl c => ret c
  | inr request_data =>
      match request_content request_data with
      | Some user_message_content =>
          if String.eqb (request_type request_data) "chat_message"
             && negb (String.eqb user_message_content "")
          then chat_turn session_id messages user_message_content ev later
          else ret (Continue messages)
      | None => ret (Continue messages)
      end
  end.

(** The client's last step when its script is over: it closes. *)
Definition hangup : event :=
  {| incoming := FDisconnect; drops_after := None; validation_report := "";
     now := ""; upstream := {| chunks := []; failure := None |};
     disk := WriteOk |}.

(** [while True: ...] over the steps the client takes. *)
Fixpoint receive_loop (session_id : string) (messages : list Message)
    (script : list event) : M unit :=
  match script with
  | [] => _ <- iteration session_id messages hangup [];; ret tt
  | ev :: later =>
      c <- iteration session_id messages ev (incoming <$> later);;
      match c with
      | Break => ret tt
      | Continue messages => receive_loop session_id messages later
      end
  end.

(** The [finally] block. *)
Definition cleanup (session_id : string) : M unit :=
  logger INFO "Cleaning up connection";;
  conns <- get active_connections;;
  (if bool_decide (is_Some (conns !! session_id)) then
     modify (set_active_connections (delete session_id))
   else ret tt);;
  s <- get sock;;
  if bool_decide (client_state s ≠ DISCONNECTED) then
    try_except
      (close 1011;;
       logger INFO "WebSocket connection explicitly closed")
      (λ e,
        match e with
        | RuntimeError => logger WARNING "Error closing WebSocket (runtime)"
        | _ => logger ERROR "Error closing WebSocket"
        end)
  else ret tt.

(** The [try]/[except]/[finally] around the loop: from a connection that
    is accepted and registered, with [messages] in memory. *)
Definition serve (session_id : string) (messages : list Message)
    (script : list event) : M unit :=
  λ w,
    let '(r, w') :=
      try_except
        (receive_loop session_id messages script)
        (λ e,
          match e with
          | WebSocketDisconnect =>
              logger INFO "WebSocket disconnected unexpectedly"
          | _ =>
              logger ERROR "Unexpected error in WebSocket handler";;
              send_ws_message (error_response
                "A critical server error occurred. Connection closing.")
          end) w in
    match cleanup session_id w' with
    | (Ok _, w'') => (r, w'')
    | (Raise e, w'') => (Raise e, w'')
    end.

(** What the outside answers when the connection is opened: whether
    [uuid.UUID(session_id)] parses, the identity of the WebSocket object,
    and the outcome of reading the history file. *)
Record opening : Type := {
  uuid_parses : bool;
  handle : nat;
  read : read_outcome;
}.

Definition websocket_endpoint (o : opening) (session_id : string)
    (script : list event) : M unit :=
  if negb (uuid_parses o) then
    logger WARNING "Invalid session ID format received";;
    close 1008
  else
    modify (set_sock (set_client_state CONNECTED));;
    logger INFO "WebSocket connection accepted";;
    modify (set_active_connections (<[session_id := handle o]>));;
    messages <- load_chat_history (read o) session_id;;
    serve session_id messages script.

(** ** Manual snapshot: [save_chat_session_manually] *)

Definition SAVED_CHATS_SUBDIR : string := "saved_chats".

(** [SAVED_CHATS_DIR = CHAT_DIR / SAVED_CHATS_SUBDIR] *)
Definition SAVED_CHATS_DIR : string := CHAT_DIR +:+ "/" +:+ SAVED_CHATS_SUBDIR.

(** How the operating system answers [SAVED_CHATS_DIR.mkdir(exist_ok=True)]
    followed by [shutil.copy2]: the copy is made; [FileNotFoundError],
    the original having disappeared; or another exception, after which the
    destination may have been created with whatever was copied so far. *)
Inductive copy_outcome : Type :=
  | CopyOk
  | SourceVanished
  | CopyFails (e : exn) (left_behind : option wire).

(** [f"session_{session_id}_saved_{timestamp}.json"] *)
Definition snapshot_filename (session_id timestamp : string) : string :=
  "session_" +:+ session_id +:+ "_saved_" +:+ timestamp +:+ ".json".

(** [SAVED_CHATS_DIR / new_filename] *)
Definition snapshot_path (session_id timestamp : string) : string :=
  SAVED_CHATS_DIR +:+ "/" +:+ snapshot_filename session_id timestamp.

(** [shutil.copy2(src, dst)] when it goes through. *)
Definition copy2 (src dst : string) (files : gmap string wire)
    : gmap string wire :=
  match files !! src with
  | Some data => <[dst := data]> files
  | None => files
  end.

(** [uuid_ok] says whether [uuid.UUID(session_id)] parses; [timestamp] is
    [datetime.now().strftime("%Y%m%d_%H%M%S")]. The result is the body of
    the 200 response; an [HTTPException] is the error response. The
    [except] clauses of the [try] around the copy are the branches of the
    match on its outcome. *)
Definition save_chat_session_manually (uuid_ok : bool) (timestamp : string)
    (io : copy_outcome) (session_id : string) : M Message :=
  logger INFO "Received request to save chat";;
  if negb uuid_ok then
    logger WARNING "Invalid session ID format for save request";;
    raise (HTTPException 400 "Invalid session ID format.")
  else
    let original_file_path := chat_path session_id in
    files <- get fs;;
    if negb (bool_decide (is_Some (files !! original_file_path))) then
      logger WARNING "Attempted to save non-existent chat history";;
      raise (HTTPException 404
               ("No chat history found for session " +:+ session_id +:+ "."))
    else
      let new_filename := snapshot_filename session_id timestamp in
      let new_file_path := snapshot_path session_id timestamp in
      match io with
      | CopyOk =>
          modify (set_fs (copy2 original_file_path new_file_path));;
          logger INFO "Successfully saved chat history";;
          ret ({[ "message" := JStr "Chat history saved successfully.";
                  "filename" := JStr new_filename ]} : Message)
      | SourceVanished =>
          logger ERROR "Original history file disappeared before saving";;
          raise (HTTPException 404 "Chat history file not found during save.")
      | CopyFails e left_behind =>
          match left_behind with
          | Some data => modify (set_fs (<[new_file_path := data]>))
          | None => ret tt
          end;;
          match e with
          | IOError =>
              logger ERROR "IOError while saving chat history";;
              raise (HTTPException 500
                "Failed to save chat history due to server I/O error.")
          | _ =>
              logger ERROR "Unexpected error saving chat history";;
              raise (HTTPException 500
                "An unexpected server error occurred during save.")
          end
      end.

(** * Vocabulary of the statements *)

(** ** The store *)

(** A transcript as the store expects it: every message is a record with
    a ["role"] and a ["content"] field. *)
Definition valid_transcript (T : list Message) : bool :=
  forallb (λ m, is_message_dict (JObj m)) T.

(** The list of records held by a file, if the file is a well-formed
    record: JSON text for a list whose elements are all dicts with the
    keys ["role"] and ["content"]. *)
Definition well_formed_record (file : option wire) : option (list json) :=
  match file with
  | Some (JsonText (JArr items)) =>
      if forallb is_message_dict items then Some items else None
  | _ => None
  end.

(** The transcript [load_chat_history] finds for a session when the file
    can be read. *)
Definition persisted (session_id : string) (w : world) : list Message :=
  dicts (default [] (well_formed_record (fs w !! chat_path session_id))).

(** The files after [save_chat_history]. *)
Definition stored (io : write_outcome) (session_id : string) (T : list Message)
    (files : gmap string wire) : gmap string wire :=
  match io with
  | WriteOk => <[chat_path session_id := JsonText (JArr (JObj <$> T))]> files
  | OpenFails _ => files
  | DumpFails _ fragment => <[chat_path session_id := NotJson fragment]> files
  end.

(** The world after [save_chat_history], which never raises: a failed
    write is only logged. *)
Definition saved (io : write_outcome) (session_id : string) (T : list Message)
    (w : world) : world :=
  let failed e :=
    set_log (λ l, l ++ [(ERROR,
      match e with
      | IOError => "Error saving chat history"
      | _ => "Unexpected error saving chat history"
      end)]) in
  match io with
  | WriteOk => set_fs (stored io session_id T) w
  | OpenFails e => failed e w
  | DumpFails e fragment => failed e (set_fs (stored io session_id T) w)
  end.

(** A world in which nothing has happened yet. *)
Definition fresh_world : world :=
  {| fs := ∅; active_connections := ∅;
     sock := {| client_state := CONNECTING; delivered := []; link := None;
                close_code := None |};
     upstream_calls := []; log := [] |}.

(** ** Effects on a part of the world *)

(** [within R m]: running [m] takes every world to an [R]-related one,
    whether it returns or raises. *)
Definition within {A} (R : relation world) (m : M A) : Prop :=
  ∀ w, R w (m w).2.

(** The part [proj] of the world is the same before and after. *)
Definition unchanged {B} (proj : world → B) : relation world :=
  λ w w', proj w' = proj w.

(** ** Sending and accumulating *)

(** The world after [send_ws_message], which never raises. *)
Definition sent (msg : WebSocketResponse) (w : world) : world :=
  if bool_decide (client_state (sock w) = CONNECTED) then
    match link (sock w) with
    | Some O =>
        set_log (λ l, l ++
          [(WARNING, "Client disconnected before message could be sent")]) w
    | _ => set_sock (deliver msg) w
    end
  else w.

(** The world after sending a list of envelopes one by one. *)
Definition sent_all (msgs : list WebSocketResponse) (w : world) : world :=
  foldl (λ w msg, sent msg w) w msgs.

(** The fragments of a stream: the contents of the chunks that have one. *)
Definition fragments (stream : list ChatCompletionChunk) : list string :=
  omap chunk_content stream.

(** [assistant_response_content] after [+=] of each fragment in turn. *)
Definition accumulate (buffer : string) (frags : list string) : string :=
  foldl String.append buffer frags.

(** The envelopes a link still carries. *)
Definition carried {A} (l : option nat) (msgs : list A) : list A :=
  match l with
  | None => msgs
  | Some k => take k msgs
  end.

(** ** The persisted transcript over a session *)




(** ** The phases of a turn *)

(** A message whose content is a string. *)
Definition text_message (m : Message) : bool :=
  match m !! "content" with
  | Some (JStr _) => true
  | _ => false
  end.

(** The log line and the detail of the error envelope that
    [upstream_failed] chooses for an exception. *)
Definition failure_log (e : exn) : level * string :=
  match e with
  | APIConnectionError => (ERROR, "OpenAI API Connection Error")
  | RateLimitError => (WARNING, "OpenAI Rate Limit Error")
  | APIStatusError _ => (ERROR, "OpenAI API Status Error")
  | _ => (ERROR, "Error during OpenAI call or streaming")
  end.

Definition failure_detail (e : exn) : string :=
  match e with
  | APIConnectionError => "Could not connect to AI service."
  | RateLimitError =>
      "AI service is temporarily overloaded. Please try again later."
  | APIStatusError status_code =>
      "AI service error (Status: " +:+ pretty status_code
      +:+ "). Please try again."
  | _ => "An unexpected error occurred while communicating with the AI."
  end.

(** The world after the upstream call of a turn and its [except]
    clauses: the call is recorded, the fragments are relayed, and the
    stream is closed by the ["[DONE]"] envelope or by an error envelope. *)
Definition answered (run : upstream_run) (api_messages : list Message)
    (w : world) : world :=
  let relayed :=
    sent_all (stream_response <$> fragments (chunks run))
      (set_upstream_calls (λ calls, calls ++ [api_messages])
         (set_log (λ l, l ++ [(INFO, "Sending request to OpenAI")]) w)) in
  match failure run with
  | None =>
      set_log (λ l, l ++ [(INFO, "Successfully streamed response")])
        (sent (stream_response "[DONE]") relayed)
  | Some e =>
      sent (error_response (failure_detail e))
        (set_log (λ l, l ++ [failure_log e]) relayed)
  end.

(** The end of a turn, after the upstream call: the [if]/[elif] under
    "Save History". *)
Definition conclude (session_id : string) (messages : list Message)
    (assistant_response_content : string) (io : write_outcome)
    (later : list frame) : M control :=
  if negb (String.eqb assistant_response_content "") then
    let messages := messages ++ [assistant_message assistant_response_content] in
    save_chat_history io session_id messages;;
    ret (Continue messages)
  else
    received <- iter_json later;;
    error_seen <- lift (any_type_error received);;
    (if negb error_seen then logger WARNING "OpenAI response was empty"
     else ret tt);;
    ret (Continue messages).

(** The envelope that ends the answer of a turn. *)
Definition closing (run : upstream_run) : WebSocketResponse :=
  match failure run with
  | None => stream_response "[DONE]"
  | Some e => error_response (failure_detail e)
  end.

(** ** Concrete sessions *)

(** A world with the connection accepted. *)
Definition connected_world : world :=
  set_sock (set_client_state CONNECTED) fresh_world.

(** The frame [{"type": "chat_message", "content": text}]. *)
Definition chat_frame (text : string) : frame :=
  FText (JsonText (JObj {[ "type" := JStr "chat_message";
                           "content" := JStr text ]})).

(** A chunk whose delta carries [text]. *)
Definition fragment (text : string) : ChatCompletionChunk :=
  {| choices := [{| delta := Some {| delta_content := Some text |} |}] |}.

(** The client sends [text]; the upstream call behaves as [run]; the
    link stays up and the write goes through. *)
Definition turn (text : string) (run : upstream_run) : event :=
  {| incoming := chat_frame text; drops_after := None;
     validation_report := ""; now := "2025-01-01 00:00:00 UTC";
     upstream := run; disk := WriteOk |}.

(** A message of 300001 characters. *)
Definition long_text : string :=
  Pos.iter (String (Ascii.ascii_of_nat 97)) "" 300001.

(** The client sends [text]; the connection drops once [k] envelopes have
    been delivered. *)
Definition dropping_turn (text : string) (k : nat) (run : upstream_run) : event :=
  {| incoming := chat_frame text; drops_after := Some k;
     validation_report := ""; now := "2025-01-01 00:00:00 UTC";
     upstream := run; disk := WriteOk |}.


(** The world after the [except] clauses around the receive loop have
    caught [e]. *)
Definition caught (e : exn) (w : world) : world :=
  match e with
  | WebSocketDisconnect =>
      set_log (λ l, l ++ [(INFO, "WebSocket disconnected unexpectedly")]) w
  | _ =>
      sent (error_response
              "A critical server error occurred. Connection closing.")
        (set_log (λ l, l ++ [(ERROR, "Unexpected error in WebSocket handler")])
           w)
  end.

(** The client takes the step [fr]; the link stays up. *)
Definition client_sends (fr : frame) (report : string) : event :=
  {| incoming := fr; drops_after := None; validation_report := report;
     now := "2025-01-01 00:00:00 UTC";
     upstream := {| chunks := []; failure := None |}; disk := WriteOk |}.

(** The upstream calls made so far are still there, in order, and more
    may have been made. *)
Definition calls_grow : relation world :=
  λ w w', upstream_calls w `prefix_of` upstream_calls w'.

(** * Verification *)

(** ** Facts about the budgeter *)

Section Budgeter.

Implicit Types (history rest : list Message) (max_chars chars : Z).

Lemma content_len_system system_prompt :
  content_len (system_message system_prompt) = Ok (str_len system_prompt).
Proof. reflexivity. Qed.

Lemma has_len_Ok msg : has_len msg = true → ∃ n, content_len msg = Ok n.
Proof. unfold has_len. destruct (content_len msg); [eauto | discriminate]. Qed.

Lemma sum_content_len_total history :
  forallb has_len history = true → ∃ n, sum_content_len history = Ok n.
Proof.
  induction history as [|msg history IH]; simpl; [eauto |].
  intros [Hm Hh]%andb_prop.
  destruct (has_len_Ok _ Hm) as [n ->], (IH Hh) as [t ->]. simpl. eauto.
Qed.

(** The loop keeps a suffix of [rest]; [current_chars] stays the system
    prompt's length plus the length of what is kept; on exit the budget
    is met or nothing but the system message is left. *)
Lemma trim_loop_spec max_chars rest : ∀ chars sys_chars total,
  sum_content_len rest = Ok total →
  chars = sys_chars + total →
  ∃ k kept_chars,
    trim_loop max_chars rest chars = Ok (drop k rest, sys_chars + kept_chars)
    ∧ sum_content_len (drop k rest) = Ok kept_chars
    ∧ (sys_chars + kept_chars <= max_chars ∨ drop k rest = []).
Proof.
  induction rest as [|msg rest IH]; intros chars sys_chars total; simpl.
  - intros [= <-] ->. exists 0%nat, 0. auto.
  - destruct (content_len msg) as [c|] eqn:Hc; [simpl | discriminate].
    destruct (sum_content_len rest) as [t|] eqn:Ht; [simpl | discriminate].
    intros [= <-] ->. case_bool_decide as Hgt.
    + destruct (IH (sys_chars + (c + t) - c) sys_chars t eq_refl ltac:(lia))
        as (k & kept & Hloop & Hsum & Hfit).
      exists (S k), kept. simpl. auto.
    + exists 0%nat, (c + t). simpl. rewrite Hc, Ht. simpl.
      split_and!; auto with lia.
Qed.

(** What [_limit_context_by_chars] returns on a history whose contents
    all have a length. *)
Lemma limit_context_spec system_prompt history max_chars model_name :
  forallb has_len history = true →
  ∃ k kept_chars,
    _limit_context_by_chars system_prompt history max_chars model_name
      = Ok (system_message system_prompt :: drop k history)
    ∧ sum_content_len (drop k history) = Ok kept_chars
    ∧ (str_len system_prompt + kept_chars <= max_chars ∨ drop k history = []).
Proof.
  intros Hlen. destruct (sum_content_len_total _ Hlen) as [total Htotal].
  unfold _limit_context_by_chars. rewrite Htotal. simpl.
  case_bool_decide as Hfit.
  - exists 0%nat, total. auto.
  - destruct (trim_loop_spec max_chars history _ (str_len system_prompt) total
                Htotal eq_refl) as (k & kept & -> & Hsum & Hok).
    simpl. eauto.
Qed.

End Budgeter.

(** C2. For every history whose contents are text (so that [len] is
    defined on them) and every budget, [_limit_context_by_chars] returns a
    list whose first element is the system message; and when the system
    prompt alone fits the budget, the total character count of the
    returned list (system prompt plus kept contents) is within the
    budget. *)
Theorem limit_context_within_budget
    (system_prompt : string) (history : list Message) (max_chars : Z)
    (model_name : string) :
  forallb has_len history = true →
  ∃ kept,
    _limit_context_by_chars system_prompt history max_chars model_name
      = Ok (system_message system_prompt :: kept)
    ∧ (str_len system_prompt <= max_chars →
       ∃ total, sum_content_len (system_message system_prompt :: kept) = Ok total
                ∧ total <= max_chars).
Proof.
  intros Hlen.
  destruct (limit_context_spec system_prompt history max_chars model_name Hlen)
    as (k & kept_chars & Hret & Hsum & Hfit).
  exists (drop k history). split; [exact Hret |].
  intros Hsys. exists (str_len system_prompt + kept_chars).
  cbn [sum_content_len]. rewrite content_len_system, Hsum. simpl.
  split; [reflexivity |].
  destruct Hfit as [Hfit | Hnil]; [exact Hfit |].
  rewrite Hnil in Hsum. simpl in Hsum. injection Hsum as <-. lia.
Qed.

(** C8. The messages dropped by [_limit_context_by_chars] are the first
    [k] messages of the history, for some [k], and the kept conversational
    messages are the remaining suffix, in their original order. *)
Theorem limit_context_drops_oldest_prefix
    (system_prompt : string) (history : list Message) (max_chars : Z)
    (model_name : string) :
  forallb has_len history = true →
  ∃ dropped kept,
    _limit_context_by_chars system_prompt history max_chars model_name
      = Ok (system_message system_prompt :: kept)
    ∧ history = dropped ++ kept.
Proof.
  intros Hlen.
  destruct (limit_context_spec system_prompt history max_chars model_name Hlen)
    as (k & kept_chars & Hret & _).
  exists (take k history), (drop k history). split; [exact Hret |].
  symmetry. apply take_drop.
Qed.

Lemma limit_context_within_budget_witness :
  ∃ kept,
    _limit_context_by_chars "sys"
      [user_message "hello"; assistant_message "world!"] 9 DEFAULT_MODEL
      = Ok (system_message "sys" :: kept)
    ∧ (str_len "sys" <= 9 →
       ∃ total, sum_content_len (system_message "sys" :: kept) = Ok total
                ∧ total <= 9).
Proof.
  apply (limit_context_within_budget "sys"
           [user_message "hello"; assistant_message "world!"] 9 DEFAULT_MODEL).
  reflexivity.
Defined.

Lemma limit_context_drops_oldest_prefix_witness :
  ∃ dropped kept,
    _limit_context_by_chars "sys"
      [user_message "hello"; assistant_message "world!"] 9 DEFAULT_MODEL
      = Ok (system_message "sys" :: kept)
    ∧ [user_message "hello"; assistant_message "world!"] = dropped ++ kept.
Proof.
  apply (limit_context_drops_oldest_prefix "sys"
           [user_message "hello"; assistant_message "world!"] 9 DEFAULT_MODEL).
  reflexivity.
Defined.

(** ** Facts about the transcript store *)

(** Unfolds the operations of the monad. *)
Ltac run :=
  repeat (progress (unfold bind, ret, raise, try_except, get, modify, lift,
                      logger in *; cbn beta iota)).

#[local] Arguments chat_path : simpl never.

Section Store.

Implicit Types (w : world) (T : list Message) (items : list json).


Lemma forallb_JObj T :
  forallb is_message_dict (JObj <$> T) = valid_transcript T.
Proof.
  unfold valid_transcript. induction T as [|m T IH]; [done |].
  cbn [fmap list_fmap forallb]. by f_equal.
Qed.



Lemma save_chat_history_spec io session_id T w :
  save_chat_history io session_id T w = (Ok tt, saved io session_id T w).
Proof. destruct io as [|e|e fragment]; try destruct e; reflexivity. Qed.

Lemma load_chat_history_readable session_id w :
  ∃ w', load_chat_history ReadOk session_id w = (Ok (persisted session_id w), w')
        ∧ fs w' = fs w ∧ active_connections w' = active_connections w
        ∧ sock w' = sock w ∧ upstream_calls w' = upstream_calls w.
Proof.
  unfold load_chat_history, persisted, well_formed_record, read_json. run.
  simpl. generalize (chat_path session_id) as file_path. intros file_path.
  destruct (fs w !! file_path) as [[v|raw]|] eqn:Hfile; simpl; rewrite ?Hfile;
    [destruct v as [| | | | |items|]; simpl;
     [..|destruct (forallb is_message_dict items); simpl|] | |];
    eexists; split_and!; reflexivity.
Qed.

Lemma load_chat_history_unreadable e session_id w :
  ∃ w', load_chat_history (ReadFails e) session_id w = (Ok [], w')
        ∧ fs w' = fs w.
Proof.
  unfold load_chat_history, read_json. run.
  simpl. generalize (chat_path session_id) as file_path. intros file_path.
  destruct (fs w !! file_path) as [file|]; simpl; [|eauto].
  destruct e; simpl; eauto.
Qed.


End Store.




(** C10. [create_session] answers 201 with the fresh session id whatever
    the outcome of the write: [save_chat_history] catches and logs the
    error, so the [HTTPException] branch is never taken. When [open]
    fails the store is unchanged, so no empty transcript exists for the
    id that was handed out. *)
Theorem create_session_ignores_write_failure
    (fresh_uuid : string) (io : write_outcome) (w : world) :
  ∃ w',
    create_session fresh_uuid io w = (Ok {[ "session_id" := JStr fresh_uuid ]}, w')
    ∧ fs w' = stored io fresh_uuid [] (fs w)
    ∧ log w' = log (saved io fresh_uuid [] w) ++ [(INFO, "New chat session created")].
Proof.
  unfold create_session. run. rewrite save_chat_history_spec. simpl.
  eexists. split_and!; [reflexivity | | reflexivity].
  by destruct io.
Qed.

(** ** Effects that leave a part of the world alone *)

Section Within.

Context {P : Type} (proj : world → P).
Lemma within_ret {A} (a : A) : within (unchanged proj) (ret a).
Proof. by intros w. Qed.

Lemma within_raise {A} e : within (unchanged proj) (raise (A:=A) e).
Proof. by intros w. Qed.

Lemma within_get {A} (p : world → A) : within (unchanged proj) (get p).
Proof. by intros w. Qed.

Lemma within_lift {A} (r : result A) : within (unchanged proj) (lift r).
Proof. by intros w. Qed.

Lemma within_modify (f : world → world) :
  (∀ w, proj (f w) = proj w) → within (unchanged proj) (modify f).
Proof. intros Hf w. apply Hf. Qed.

Lemma within_bind {A B} (m : M A) (k : A → M B) :
  within (unchanged proj) m → (∀ a, within (unchanged proj) (k a)) → within (unchanged proj) (bind m k).
Proof.
  intros Hm Hk w. unfold bind. specialize (Hm w).
  destruct (m w) as [[a|e] w1]; simpl in *; [|done].
  specialize (Hk a w1). unfold unchanged in *. congruence.
Qed.

Lemma within_try_except {A} (body : M A) (handler : exn → M A) :
  within (unchanged proj) body → (∀ e, within (unchanged proj) (handler e)) →
  within (unchanged proj) (try_except body handler).
Proof.
  intros Hb Hh w. unfold try_except. specialize (Hb w).
  destruct (body w) as [[a|e] w1]; simpl in *; [done |].
  specialize (Hh e w1). unfold unchanged in *. congruence.
Qed.

End Within.

(** Splits a computation into its steps, leaving the modifications of the
    world as goals. *)
Ltac frame_step :=
  lazymatch goal with
  | |- within _ (ret _) => apply within_ret
  | |- within _ (raise _) => apply within_raise
  | |- within _ (get _) => apply within_get
  | |- within _ (lift _) => apply within_lift
  | |- within _ (bind _ _) => apply within_bind; [| intros ?]
  | |- within _ (try_except _ _) => apply within_try_except; [| intros ?]
  | |- within _ (modify _) => apply within_modify; intros ?
  | |- within _ (match ?x with _ => _ end) => destruct x
  end.

Ltac frame := repeat frame_step.

Section Frames.

Context {B : Type} (proj : world → B).
Context (proj_log : ∀ f w, proj (set_log f w) = proj w).

Lemma logger_within lvl msg : within (unchanged proj) (logger lvl msg).
Proof. unfold logger. frame. apply proj_log. Qed.

End Frames.

(** ** What sending does *)

Section Sending.

Implicit Types (w : world) (msg : WebSocketResponse).

Lemma send_ws_message_spec msg w : send_ws_message msg w = (Ok tt, sent msg w).
Proof.
  unfold send_ws_message, sent, send_json. run.
  destruct (bool_decide (client_state (sock w) = CONNECTED)); [|done].
  run. by destruct (link (sock w)) as [[|k]|].
Qed.

Lemma relay_spec stream : ∀ buffer w,
  relay stream buffer w
  = (Ok (accumulate buffer (fragments stream)),
     sent_all (stream_response <$> fragments stream) w).
Proof.
  induction stream as [|chunk stream IH]; intros buffer w; [done |].
  unfold fragments. simpl. destruct (chunk_content chunk) as [c|]; [|apply IH].
  unfold bind. rewrite send_ws_message_spec. apply IH.
Qed.

Lemma sent_fs msg w : fs (sent msg w) = fs w.
Proof. unfold sent. repeat case_match; done. Qed.

Lemma sent_active_connections msg w :
  active_connections (sent msg w) = active_connections w.
Proof. unfold sent. repeat case_match; done. Qed.

Lemma sent_upstream_calls msg w : upstream_calls (sent msg w) = upstream_calls w.
Proof. unfold sent. repeat case_match; done. Qed.

Lemma sent_client_state msg w :
  client_state (sock (sent msg w)) = client_state (sock w).
Proof. unfold sent. repeat case_match; done. Qed.

Lemma sent_delivered msg w :
  client_state (sock w) = CONNECTED →
  delivered (sock (sent msg w)) = delivered (sock w) ++ carried (link (sock w)) [msg]
  ∧ link (sock (sent msg w)) = pred <$> link (sock w).
Proof.
  intros Hc. unfold sent. rewrite bool_decide_eq_true_2 by done.
  destruct (link (sock w)) as [[|k]|] eqn:Hl; simpl;
    rewrite ?Hl, ?take_nil, ?app_nil_r; done.
Qed.

Lemma sent_all_fs msgs : ∀ w, fs (sent_all msgs w) = fs w.
Proof.
  induction msgs as [|msg msgs IH]; intros w; [done |].
  unfold sent_all in *. simpl. by rewrite IH, sent_fs.
Qed.

Lemma sent_all_active_connections msgs : ∀ w,
  active_connections (sent_all msgs w) = active_connections w.
Proof.
  induction msgs as [|msg msgs IH]; intros w; [done |].
  unfold sent_all in *. simpl. by rewrite IH, sent_active_connections.
Qed.

Lemma sent_all_upstream_calls msgs : ∀ w,
  upstream_calls (sent_all msgs w) = upstream_calls w.
Proof.
  induction msgs as [|msg msgs IH]; intros w; [done |].
  unfold sent_all in *. simpl. by rewrite IH, sent_upstream_calls.
Qed.

Lemma sent_all_client_state msgs : ∀ w,
  client_state (sock (sent_all msgs w)) = client_state (sock w).
Proof.
  induction msgs as [|msg msgs IH]; intros w; [done |].
  unfold sent_all in *. simpl. by rewrite IH, sent_client_state.
Qed.

(** A connected socket delivers what its link still carries. *)
Lemma sent_all_delivered msgs : ∀ w,
  client_state (sock w) = CONNECTED →
  delivered (sock (sent_all msgs w))
    = delivered (sock w) ++ carried (link (sock w)) msgs
  ∧ link (sock (sent_all msgs w)) = (λ k, k - length msgs)%nat <$> link (sock w).
Proof.
  induction msgs as [|msg msgs IH]; intros w Hc.
  - simpl. destruct (link (sock w)) as [k|]; simpl;
      rewrite ?take_nil, ?app_nil_r, ?Nat.sub_0_r; done.
  - unfold sent_all in *. simpl.
    destruct (sent_delivered msg w Hc) as [Hd Hl].
    destruct (IH (sent msg w)) as [Hd' Hl']; [by rewrite sent_client_state |].
    rewrite Hd', Hl', Hd, Hl. clear.
    destruct (link (sock w)) as [[|k]|]; simpl;
      rewrite ?take_nil, ?app_nil_r, <- ?app_assoc; done.
Qed.

End Sending.

(** ** Which steps touch which part of the world *)

Section SendingFrames.

(** A part of the world that neither the log nor a delivery nor the list
    of upstream calls changes. *)
Context {B : Type} (proj : world → B).
Context (proj_log : ∀ f w, proj (set_log f w) = proj w).
Context (proj_deliver : ∀ msg w, proj (set_sock (deliver msg) w) = proj w).
Context (proj_calls : ∀ f w, proj (set_upstream_calls f w) = proj w).

Lemma send_ws_message_within msg : within (unchanged proj) (send_ws_message msg).
Proof.
  intros w. rewrite send_ws_message_spec. unfold unchanged, sent. simpl.
  repeat case_match; auto.
Qed.

Lemma relay_within stream : ∀ buffer, within (unchanged proj) (relay stream buffer).
Proof.
  induction stream as [|chunk stream IH]; intros buffer; cbn [relay]; frame;
    first [apply send_ws_message_within | apply IH].
Qed.

Lemma upstream_failed_within e : within (unchanged proj) (upstream_failed e).
Proof.
  unfold upstream_failed.
  destruct e; frame;
    first [apply logger_within; exact proj_log | apply send_ws_message_within].
Qed.

Lemma stream_turn_within run to_send api :
  within (unchanged proj) (stream_turn run to_send api).
Proof.
  unfold stream_turn. frame;
    first [ apply logger_within; exact proj_log | apply send_ws_message_within
          | apply relay_within | apply proj_calls ].
Qed.

End SendingFrames.

Section ReceivingFrames.

(** A part of the world that neither the log nor the client's state nor
    the schedule of the link changes. *)
Context {B : Type} (proj : world → B).
Context (proj_log : ∀ f w, proj (set_log f w) = proj w).
Context (proj_state : ∀ st w, proj (set_sock (set_client_state st) w) = proj w).
Context (proj_schedule : ∀ cut w, proj (set_sock (schedule cut) w) = proj w).

Lemma receive_text_within fr cut : within (unchanged proj) (receive_text fr cut).
Proof.
  unfold receive_text. frame; first [apply proj_state | apply proj_schedule].
Qed.

Lemma iter_json_within frames : within (unchanged proj) (iter_json frames).
Proof.
  induction frames as [|fr frames IH]; simpl; frame;
    first [apply receive_text_within | apply IH].
Qed.

End ReceivingFrames.

(** ** The receiving side *)

Section Receiving.

Implicit Types (w : world) (fr : frame).

Lemma within_run {A P} (proj : world → P) (m : M A) w r w' :
  within (unchanged proj) m → m w = (r, w') → proj w' = proj w.
Proof. intros Hm Hrun. specialize (Hm w). by rewrite Hrun in Hm. Qed.

(** The three ways [receive_text] ends. *)
Lemma receive_text_cases fr cut w :
  (client_state (sock w) ≠ CONNECTED
   ∧ receive_text fr cut w = (Raise RuntimeError, w))
  ∨ (client_state (sock w) = CONNECTED
     ∧ (link (sock w) = Some O ∨ fr = FDisconnect)
     ∧ receive_text fr cut w
       = (Raise WebSocketDisconnect,
          set_sock (set_client_state DISCONNECTED) w))
  ∨ (client_state (sock w) = CONNECTED
     ∧ link (sock w) ≠ Some O
     ∧ ∃ text, fr = FText text
       ∧ receive_text fr cut w = (Ok text, set_sock (schedule cut) w)).
Proof.
  unfold receive_text. run. case_bool_decide as Hc; [by left |].
  right.
  destruct (link (sock w)) as [[|k]|] eqn:Hl, fr as [text|]; run; simpl;
    first [ left; split_and!; [done | by auto | done]
          | right; split_and!; [done | done | by eexists] ].
Qed.

(** When [iter_json] returns, the client has disconnected. *)
Lemma iter_json_returns frames : ∀ w vs w',
  iter_json frames w = (Ok vs, w') → client_state (sock w') = DISCONNECTED.
Proof.
  assert (Hone : ∀ fr w (r : option json) w1,
    try_except
      (text <- receive_text fr None;; v <- lift (json_loads text);; ret (Some v))
      (λ e, match e with WebSocketDisconnect => ret None | _ => raise e end) w
    = (Ok r, w1) →
    (r = None ∧ client_state (sock w1) = DISCONNECTED)
    ∨ (∃ v text, r = Some v ∧ fr = FText text)).
  { intros fr w r w1. unfold try_except, bind.
    destruct (receive_text_cases fr None w)
      as [[_ ->]|[(_ & _ & ->)|(_ & _ & text & -> & ->)]]; run.
    - done.
    - intros [= <- <-]. by left.
    - destruct text as [v|raw]; simpl; run; [|done].
      intros [= <- <-]. eauto. }
  induction frames as [|fr frames IH]; intros w vs w'; cbn [iter_json]; unfold bind at 1.
  - match goal with |- context [try_except ?b ?h w] =>
      destruct (try_except b h w) as [[r|e] w1] eqn:Hr end; [|done].
    apply Hone in Hr as [[-> Hd]|(v & text & _ & [=])]; run; by intros [= <- <-].
  - match goal with |- context [try_except ?b ?h w] =>
      destruct (try_except b h w) as [[r|e] w1] eqn:Hr end; [|done].
    apply Hone in Hr as [[-> Hd]|(v & text & -> & _)]; run; [by intros [= <- <-] |].
    destruct (iter_json frames w1) as [[vs1|e] w2] eqn:Hi; [|done].
    intros [= <- <-]. by eapply IH.
Qed.

End Receiving.

(** ** The store during a turn *)

Section TurnStore.

Implicit Types (w : world) (messages : list Message) (ev : event).

(** A turn either saves the transcript extended by the user message and a
    non-empty assistant message and goes on, or leaves the store alone;
    in the latter case it raises, or goes on only after the client has
    disconnected. *)
Lemma chat_turn_store session_id messages c ev later w r w' :
  chat_turn session_id messages c ev later w = (r, w') →
  active_connections w' = active_connections w
  ∧ ((∃ a, a ≠ ""
        ∧ r = Ok (Continue ((messages ++ [user_message c])
                             ++ [assistant_message a]))
        ∧ fs w' = stored (disk ev) session_id
                    ((messages ++ [user_message c]) ++ [assistant_message a])
                    (fs w))
     ∨ (fs w' = fs w
        ∧ ((∃ e, r = Raise e)
           ∨ ∃ messages', r = Ok (Continue messages')
               ∧ client_state (sock w') = DISCONNECTED))).
Proof.
  unfold chat_turn. unfold bind at 1.
  destruct (lift _ w) as [[to_send|e] w0] eqn:Htrim.
  2:{ unfold lift in Htrim. injection Htrim as _ <-. intros [= <- <-]. eauto 10. }
  assert (w0 = w) as -> by (unfold lift in Htrim; congruence).
  unfold bind at 1.
  destruct (stream_turn _ _ _ w) as [[[buffer raised]|e] w1] eqn:Hstream.
  2:{ intros [= <- <-]. split.
      - eapply (within_run active_connections), Hstream.
        by apply stream_turn_within.
      - right. split; [|eauto].
        eapply (within_run fs), Hstream. by apply stream_turn_within. }
  assert (fs w1 = fs w ∧ active_connections w1 = active_connections w)
    as [Hfs1 Hac1].
  { split; [eapply (within_run fs) | eapply (within_run active_connections)];
      try exact Hstream; by apply stream_turn_within. }
  unfold bind at 1.
  destruct (match raised with Some e => upstream_failed e | None => ret tt end w1)
    as [[[]|e] w2] eqn:Hfail.
  2:{ destruct raised as [e'|]; [|done].
      unfold upstream_failed in Hfail. revert Hfail.
      destruct e'; run; rewrite send_ws_message_spec; done. }
  assert (fs w2 = fs w ∧ active_connections w2 = active_connections w)
    as [Hfs2 Hac2].
  { rewrite <- Hfs1, <- Hac1. destruct raised as [e'|]; [|by injection Hfail as <-].
    split; [eapply (within_run fs) | eapply (within_run active_connections)];
      try exact Hfail; by apply upstream_failed_within. }
  destruct (String.eqb buffer "") eqn:Hbuf; simpl.
  - unfold bind at 1.
    destruct (iter_json later w2) as [[received|e] w3] eqn:Hdrain.
    2:{ intros [= <- <-]. split.
        - rewrite <- Hac2. eapply (within_run active_connections), Hdrain.
          by apply iter_json_within.
        - right. split; [|eauto]. rewrite <- Hfs2.
          eapply (within_run fs), Hdrain. by apply iter_json_within. }
    assert (fs w3 = fs w ∧ active_connections w3 = active_connections w)
      as [Hfs3 Hac3].
    { rewrite <- Hfs2, <- Hac2.
      split; [eapply (within_run fs) | eapply (within_run active_connections)];
        try exact Hdrain; by apply iter_json_within. }
    apply iter_json_returns in Hdrain.
    run. destruct (any_type_error received) as [[|]|e]; simpl;
      intros [= <- <-]; (split; [done |]); right; (split; [done |]); eauto.
  - unfold bind at 1. rewrite save_chat_history_spec. run. intros [= <- <-].
    apply String.eqb_neq in Hbuf. split.
    + by destruct (disk ev).
    + left. exists buffer. split_and!; [done..|].
      rewrite <- Hfs2. by destruct (disk ev).
Qed.

End TurnStore.

Section LoopStore.

Implicit Types (w : world) (messages : list Message) (ev : event).

Lemma model_validate_raises report data e :
  model_validate report data = Raise e → e = ValidationError report.
Proof.
  unfold model_validate. repeat case_match; congruence.
Qed.

(** One pass through the loop body, seen from the store. *)
Lemma iteration_store session_id messages ev later w r w' :
  iteration session_id messages ev later w = (r, w') →
  active_connections w' = active_connections w
  ∧ ((∃ c a, a ≠ "" ∧ client_state (sock w) = CONNECTED
        ∧ incoming ev ≠ FDisconnect
        ∧ r = Ok (Continue ((messages ++ [user_message c])
                             ++ [assistant_message a]))
        ∧ fs w' = stored (disk ev) session_id
                    ((messages ++ [user_message c]) ++ [assistant_message a])
                    (fs w))
     ∨ (fs w' = fs w
        ∧ ((r = Ok (Continue messages) ∧ client_state (sock w) = CONNECTED)
           ∨ (∃ messages', r = Ok (Continue messages')
                ∧ client_state (sock w') = DISCONNECTED)
           ∨ r = Ok Break
           ∨ ∃ e, r = Raise e))).
Proof.
  unfold iteration. unfold bind at 1. unfold try_except. unfold bind at 1.
  destruct (receive_text_cases (incoming ev) (drops_after ev) w)
    as [[Hc ->]|[(Hc & _ & ->)|(Hc & Hl & text & Hfr & ->)]].
  - run. rewrite send_ws_message_spec. run. intros [= <- <-].
    rewrite sent_fs, sent_active_connections. simpl. eauto 10.
  - run. intros [= <- <-]. simpl. eauto 10.
  - destruct text as [data|raw]; simpl.
    2:{ run. rewrite send_ws_message_spec. run. intros [= <- <-].
        rewrite sent_fs, sent_active_connections. simpl. eauto 10. }
    run. destruct (model_validate (validation_report ev) data) as [req|e] eqn:Hv.
    2:{ apply model_validate_raises in Hv as ->.
        run. rewrite send_ws_message_spec. run. intros [= <- <-].
        rewrite sent_fs, sent_active_connections. simpl. eauto 10. }
    run. destruct (request_content req) as [c|]; [|intros [= <- <-]; simpl; eauto 10].
    destruct (_ && _); [|intros [= <- <-]; simpl; eauto 10].
    intros Hturn. apply chat_turn_store in Hturn as [Hac Hturn]. simpl in *.
    split; [done |].
    destruct Hturn as [(a & Ha & -> & Hfs)|(Hfs & [[e ->]|(m' & -> & Hd)])];
      [|eauto 15..].
    left. exists c, a. split_and!; try done. by rewrite Hfr.
Qed.

End LoopStore.

(** ** The persisted transcript over a session *)

Section AppendLog.

Implicit Types (w : world) (messages P Q : list Message) (ev : event).


Lemma persisted_fs session_id w w' :
  fs w' = fs w → persisted session_id w' = persisted session_id w.
Proof. unfold persisted. by intros ->. Qed.








(** A connection opened with a valid id and a readable store enters the
    loop connected, registered, and with the persisted transcript in
    memory. *)
Lemma websocket_endpoint_serves_persisted o session_id script w :
  uuid_parses o = true →
  read o = ReadOk →
  ∃ w1,
    websocket_endpoint o session_id script w
    = serve session_id (persisted session_id w) script w1
    ∧ persisted session_id w1 = persisted session_id w
    ∧ client_state (sock w1) = CONNECTED
    ∧ active_connections w1 !! session_id = Some (handle o).
Proof.
  intros Huuid Hread. unfold websocket_endpoint. rewrite Huuid, Hread. simpl.
  unfold bind at 1, modify at 1. unfold bind at 1, logger at 1, modify at 1.
  unfold bind at 1, modify at 1. unfold bind at 1.
  match goal with |- context [load_chat_history ReadOk session_id ?w0] =>
    destruct (load_chat_history_readable session_id w0)
      as (w1 & -> & Hfs & Hac & Hsock & _)
  end.
  exists w1. split_and!.
  - done.
  - by apply persisted_fs.
  - by rewrite Hsock.
  - rewrite Hac. simpl. apply lookup_insert_eq.
Qed.

End AppendLog.

(** ** A turn on a transcript of text messages *)

Section TextTurn.

Implicit Types (w : world) (messages : list Message) (ev : event).

Lemma text_has_len m : text_message m = true → has_len m = true.
Proof.
  unfold text_message, has_len, content_len.
  destruct (m !! "content") as [[]|]; done.
Qed.

Lemma forallb_text_has_len messages :
  forallb text_message messages = true → forallb has_len messages = true.
Proof.
  induction messages as [|m messages IH]; simpl; [done |].
  intros [Hm Hr]%andb_prop. by rewrite (text_has_len _ Hm), IH.
Qed.

Lemma forallb_drop {A} (f : A → bool) k : ∀ l,
  forallb f l = true → forallb f (drop k l) = true.
Proof.
  induction k as [|k IH]; intros [|x l]; simpl; try done.
  intros [_ Hl]%andb_prop. by apply IH.
Qed.

Lemma sum_len_content_text messages :
  forallb text_message messages = true → ∃ n, sum_len_content messages = Ok n.
Proof.
  induction messages as [|m messages IH]; simpl; [eauto |].
  intros [Hm Hr]%andb_prop. destruct (IH Hr) as [n ->].
  unfold text_message in Hm.
  destruct (m !! "content") as [[]|]; try done. simpl. eauto.
Qed.

Lemma upstream_failed_spec e w :
  upstream_failed e w
  = (Ok tt, sent (error_response (failure_detail e))
              (set_log (λ l, l ++ [failure_log e]) w)).
Proof. destruct e; unfold upstream_failed; run; by rewrite send_ws_message_spec. Qed.

(** On a transcript of text messages the budgeter and the log line do not
    raise, and the turn is: the upstream call with the untrimmed list,
    then the conclusion on the accumulated content. *)
Lemma chat_turn_text session_id messages c ev later w :
  forallb text_message messages = true →
  chat_turn session_id messages c ev later w
  = conclude session_id (messages ++ [user_message c])
      (accumulate "" (fragments (chunks (upstream ev)))) (disk ev) later
      (answered (upstream ev)
         (system_message (system_prompt_at (now ev))
          :: messages ++ [user_message c]) w).
Proof.
  intros Htext.
  assert (forallb text_message (messages ++ [user_message c]) = true) as Htext1
    by (by rewrite forallb_app, Htext).
  destruct (limit_context_spec (system_prompt_at (now ev))
              (messages ++ [user_message c]) MAX_CONTEXT_CHARS DEFAULT_MODEL
              (forallb_text_has_len _ Htext1)) as (k & kept & Htrim & _).
  destruct (sum_len_content_text
              (system_message (system_prompt_at (now ev))
               :: drop k (messages ++ [user_message c]))) as [n Hn].
  { cbn [forallb]. by rewrite forallb_drop. }
  unfold chat_turn. rewrite Htrim. unfold bind at 1. unfold lift.
  unfold bind at 1. unfold stream_turn. rewrite Hn.
  unfold bind at 1. unfold logger at 1, modify at 1.
  unfold bind at 1. unfold modify at 1.
  unfold bind at 1. rewrite relay_spec.
  unfold answered. destruct (failure (upstream ev)) as [e|].
  - unfold ret at 1. unfold bind at 1. rewrite upstream_failed_spec. reflexivity.
  - unfold bind at 1. rewrite send_ws_message_spec.
    unfold bind at 1. unfold logger at 1, modify at 1. reflexivity.
Qed.

End TextTurn.

Section ConcludeFrames.

(** A part of the world that the log, the store, the client's state and
    the schedule of the link do not change. *)
Context {B : Type} (proj : world → B).
Context (proj_log : ∀ f w, proj (set_log f w) = proj w).
Context (proj_fs : ∀ f w, proj (set_fs f w) = proj w).
Context (proj_state : ∀ st w, proj (set_sock (set_client_state st) w) = proj w).
Context (proj_schedule : ∀ cut w, proj (set_sock (schedule cut) w) = proj w).

Lemma save_chat_history_within io session_id T :
  within (unchanged proj) (save_chat_history io session_id T).
Proof.
  intros w. rewrite save_chat_history_spec. unfold unchanged, saved. simpl.
  destruct io; by rewrite ?proj_log, ?proj_fs.
Qed.

Lemma conclude_within session_id messages buffer io later :
  within (unchanged proj) (conclude session_id messages buffer io later).
Proof.
  unfold conclude. frame;
    first [ apply save_chat_history_within | by apply iter_json_within
          | by apply logger_within ].
Qed.

End ConcludeFrames.

#[local] Arguments sent : simpl never.
#[local] Arguments sent_all : simpl never.

Section Answered.

Implicit Types (w : world) (run : upstream_run).

Lemma answered_upstream_calls run api w :
  upstream_calls (answered run api w) = upstream_calls w ++ [api].
Proof.
  unfold answered. destruct (failure run); simpl;
    rewrite ?sent_upstream_calls; simpl; by rewrite ?sent_all_upstream_calls.
Qed.

Lemma answered_fs run api w : fs (answered run api w) = fs w.
Proof.
  unfold answered. destruct (failure run); simpl;
    rewrite ?sent_fs; simpl; by rewrite ?sent_all_fs.
Qed.

Lemma answered_active_connections run api w :
  active_connections (answered run api w) = active_connections w.
Proof.
  unfold answered. destruct (failure run); simpl;
    rewrite ?sent_active_connections; simpl; by rewrite ?sent_all_active_connections.
Qed.

Lemma answered_client_state run api w :
  client_state (sock (answered run api w)) = client_state (sock w).
Proof.
  unfold answered. destruct (failure run); simpl;
    rewrite ?sent_client_state; simpl; by rewrite ?sent_all_client_state.
Qed.

Lemma carried_app {A} (l : option nat) (xs : list A) x :
  carried l xs ++ carried ((λ k, k - length xs)%nat <$> l) [x]
  = carried l (xs ++ [x]).
Proof. destruct l as [k|]; simpl; [by rewrite take_app | done]. Qed.

(** A connected socket delivers, of the fragments followed by the closing
    envelope, what its link still carries. *)
Lemma answered_delivered run api w :
  client_state (sock w) = CONNECTED →
  delivered (sock (answered run api w))
    = delivered (sock w)
      ++ carried (link (sock w))
           ((stream_response <$> fragments (chunks run)) ++ [closing run])
  ∧ link (sock (answered run api w))
    = (λ k, k - S (length (fragments (chunks run))))%nat <$> link (sock w).
Proof.
  intros Hc. unfold answered, closing.
  set (w0 := set_upstream_calls _ _).
  destruct (sent_all_delivered (stream_response <$> fragments (chunks run)) w0 Hc)
    as [Hd Hl].
  assert (client_state (sock (sent_all (stream_response <$> fragments (chunks run)) w0))
          = CONNECTED) as Hc1 by (by rewrite sent_all_client_state).
  rewrite <- carried_app, app_assoc. change (link (sock w)) with (link (sock w0)).
  change (delivered (sock w)) with (delivered (sock w0)).
  rewrite <- Hd, <- Hl.
  destruct (failure run) as [e|].
  - set (w1 := set_log _ _).
    destruct (sent_delivered (error_response (failure_detail e)) w1 Hc1) as [-> ->].
    split; [done |]. simpl. rewrite Hl. rewrite length_fmap.
    change (link (sock w0)) with (link (sock w)).
    destruct (link (sock w)); simpl; f_equal; lia.
  - simpl.
    destruct (sent_delivered (stream_response "[DONE]") _ Hc1) as [-> ->].
    split; [done |]. rewrite Hl. rewrite length_fmap.
    change (link (sock w0)) with (link (sock w)).
    destruct (link (sock w)); simpl; f_equal; lia.
Qed.

End Answered.

(** ** The list sent upstream *)

Section UpstreamCall.

Implicit Types (w : world) (messages history : list Message) (ev : event).

(** Over budget, the budgeter drops at least the oldest message. *)
Lemma limit_context_over_budget system_prompt history max_chars model_name total :
  sum_content_len history = Ok total →
  str_len system_prompt + total > max_chars →
  history ≠ [] →
  ∃ trimmed,
    _limit_context_by_chars system_prompt history max_chars model_name = Ok trimmed
    ∧ (length trimmed ≤ length history)%nat.
Proof.
  intros Hsum Hover Hne. destruct history as [|m rest]; [done |].
  unfold _limit_context_by_chars. rewrite Hsum. simpl in *.
  rewrite bool_decide_eq_false_2 by lia.
  rewrite bool_decide_eq_true_2 by lia.
  destruct (content_len m) as [c|]; [simpl in * | done].
  destruct (sum_content_len rest) as [t|] eqn:Ht; [simpl in * | done].
  injection Hsum as <-.
  destruct (trim_loop_spec max_chars rest (str_len system_prompt + (c + t) - c)
              (str_len system_prompt) t Ht ltac:(lia)) as (k & kept & -> & _).
  simpl. eexists. split; [done |]. simpl. rewrite length_drop. lia.
Qed.

(** The call records the list built from the whole transcript. *)
Lemma chat_turn_upstream_call session_id messages c ev later w :
  forallb text_message messages = true →
  upstream_calls (chat_turn session_id messages c ev later w).2
  = upstream_calls w
    ++ [system_message (system_prompt_at (now ev)) :: messages ++ [user_message c]].
Proof.
  intros Htext. rewrite chat_turn_text by done.
  rewrite <- (answered_upstream_calls (upstream ev)).
  by apply (conclude_within upstream_calls).
Qed.

End UpstreamCall.

(** C1 (the code departs from it). When the transcript with the new user
    message is over the budget, [_limit_context_by_chars] returns a list
    shorter than the system message followed by the whole transcript, and
    the list passed to the upstream call is the latter, not the former. *)
Theorem upstream_call_is_not_the_trimmed_view
    (session_id : string) (messages : list Message) (c : string) (ev : event)
    (later : list frame) (w : world) (total : Z) :
  forallb text_message messages = true →
  sum_content_len (messages ++ [user_message c]) = Ok total →
  str_len (system_prompt_at (now ev)) + total > MAX_CONTEXT_CHARS →
  ∃ trimmed,
    _limit_context_by_chars (system_prompt_at (now ev))
      (messages ++ [user_message c]) MAX_CONTEXT_CHARS DEFAULT_MODEL = Ok trimmed
    ∧ upstream_calls (chat_turn session_id messages c ev later w).2
      = upstream_calls w
        ++ [system_message (system_prompt_at (now ev))
            :: messages ++ [user_message c]]
    ∧ (length trimmed
       < length (system_message (system_prompt_at (now ev))
                 :: messages ++ [user_message c]))%nat.
Proof.
  intros Htext Hsum Hover.
  destruct (limit_context_over_budget (system_prompt_at (now ev))
              (messages ++ [user_message c]) MAX_CONTEXT_CHARS DEFAULT_MODEL
              total Hsum Hover) as (trimmed & Htrim & Hlen).
  { by destruct messages. }
  exists trimmed. split_and!; [done | by apply chat_turn_upstream_call |].
  simpl. lia.
Qed.

Lemma upstream_call_is_not_the_trimmed_view_witness :
  ∃ trimmed,
    _limit_context_by_chars
      (system_prompt_at (now (turn long_text {| chunks := []; failure := None |})))
      ([] ++ [user_message long_text]) MAX_CONTEXT_CHARS DEFAULT_MODEL = Ok trimmed
    ∧ upstream_calls
        (chat_turn "s1" [] long_text
           (turn long_text {| chunks := []; failure := None |}) []
           connected_world).2
      = upstream_calls connected_world
        ++ [system_message
              (system_prompt_at
                 (now (turn long_text {| chunks := []; failure := None |})))
            :: [] ++ [user_message long_text]]
    ∧ (length trimmed
       < length (system_message
                   (system_prompt_at
                      (now (turn long_text {| chunks := []; failure := None |})))
                 :: [] ++ [user_message long_text]))%nat.
Proof.
  apply (upstream_call_is_not_the_trimmed_view "s1" [] long_text
           (turn long_text {| chunks := []; failure := None |}) []
           connected_world 300001).
  - reflexivity.
  - vm_compute. reflexivity.
  - vm_compute. reflexivity.
Defined.

(** ** A turn without a reply *)

Section EmptyReply.

Implicit Types (w : world) (messages : list Message) (ev : event).



Lemma carried_one {A} (l : option nat) (x : A) :
  l ≠ Some O → carried l [x] = [x].
Proof. destruct l as [[|k]|]; simpl; rewrite ?take_nil; done. Qed.

End EmptyReply.




(** ** A connection that drops during the stream *)

Section Dropped.

Implicit Types (w : world) (messages : list Message) (ev : event).

Lemma model_validate_chat report c :
  model_validate report
    (JObj {[ "type" := JStr "chat_message"; "content" := JStr c ]})
  = Ok {| request_type := "chat_message"; request_content := Some c |}.
Proof. reflexivity. Qed.

(** A chat message with content, received on a live connection, starts a
    turn. *)
Lemma iteration_chat session_id messages c ev later w :
  client_state (sock w) = CONNECTED →
  link (sock w) ≠ Some O →
  incoming ev = chat_frame c →
  c ≠ "" →
  iteration session_id messages ev later w
  = chat_turn session_id messages c ev later
      (set_sock (schedule (drops_after ev)) w).
Proof.
  intros Hc Hl Hfr Hne. unfold iteration. unfold bind at 1. unfold try_except.
  unfold bind at 1.
  destruct (receive_text_cases (incoming ev) (drops_after ev) w)
    as [[Hc' _]|[(_ & [Hl'|Hfr'] & _)|(_ & _ & text & Hfr' & ->)]];
    [done | done | by rewrite Hfr in Hfr' |].
  rewrite Hfr in Hfr'. injection Hfr' as <-. cbn [json_loads lift].
  unfold bind at 1. unfold lift at 1. cbn beta iota.
  rewrite model_validate_chat. run. simpl.
  apply String.eqb_neq in Hne. by rewrite Hne.
Qed.

(** On a dropped connection the next receive ends the loop. *)
Lemma receive_loop_dropped session_id script : ∀ messages w,
  client_state (sock w) = CONNECTED →
  link (sock w) = Some O →
  receive_loop session_id messages script w
  = (Ok tt,
     set_log (λ l, l ++ [(INFO, "WebSocket disconnected (client closed)")])
       (set_sock (set_client_state DISCONNECTED) w)).
Proof.
  assert (Hit : ∀ messages ev later w,
    client_state (sock w) = CONNECTED → link (sock w) = Some O →
    iteration session_id messages ev later w
    = (Ok Break,
       set_log (λ l, l ++ [(INFO, "WebSocket disconnected (client closed)")])
         (set_sock (set_client_state DISCONNECTED) w))).
  { intros messages ev later w Hc Hl. unfold iteration. unfold bind at 1.
    unfold try_except. unfold bind at 1.
    destruct (receive_text_cases (incoming ev) (drops_after ev) w)
      as [[Hc' _]|[(_ & _ & ->)|(_ & Hl' & _)]]; [done | | done].
    by run. }
  intros messages w Hc Hl.
  destruct script as [|ev later]; cbn [receive_loop]; unfold bind at 1;
    by rewrite Hit.
Qed.

(** The [finally] block removes the session from the registry. *)
Lemma cleanup_deregisters session_id w :
  client_state (sock w) = DISCONNECTED →
  ∃ w', cleanup session_id w = (Ok tt, w')
        ∧ active_connections w' !! session_id = None
        ∧ fs w' = fs w ∧ sock w' = sock w.
Proof.
  intros Hd. unfold cleanup. run. simpl.
  destruct (bool_decide (is_Some (active_connections w !! session_id))) eqn:Hreg;
    run; simpl; rewrite Hd; simpl; eexists; split_and!; try done; simpl.
  - apply lookup_delete_eq.
  - apply bool_decide_eq_false in Hreg. by apply eq_None_not_Some.
Qed.

End Dropped.

(** C6 (as amended). If the connection drops after [k] fragments of a
    stream have been delivered, the client is delivered these [k] fragment
    envelopes and nothing after them; the handler still consumes the rest
    of the stream, and when the content accumulated from all fragments is
    not empty, the transcript with the user message and that content as
    the assistant message is written to the store; and after the cleanup
    the registry holds no entry for the session id. *)
Theorem dropped_stream_is_persisted_and_deregistered
    (session_id : string) (messages : list Message) (c : string) (ev : event)
    (later : list event) (w : world) (k : nat) :
  forallb text_message messages = true →
  client_state (sock w) = CONNECTED →
  link (sock w) ≠ Some O →
  incoming ev = chat_frame c →
  c ≠ "" →
  drops_after ev = Some k →
  (k < length (fragments (chunks (upstream ev))))%nat →
  accumulate "" (fragments (chunks (upstream ev))) ≠ "" →
  disk ev = WriteOk →
  delivered (sock (serve session_id messages (ev :: later) w).2)
    = delivered (sock w)
      ++ (stream_response <$> take k (fragments (chunks (upstream ev))))
  ∧ fs (serve session_id messages (ev :: later) w).2 !! chat_path session_id
    = Some (JsonText (JArr (JObj <$>
        (messages ++ [user_message c])
        ++ [assistant_message
              (accumulate "" (fragments (chunks (upstream ev))))])))
  ∧ active_connections (serve session_id messages (ev :: later) w).2
      !! session_id = None.
Proof.
  intros Htext Hc Hl Hfr Hne Hdrop Hk Hbuf Hdisk.
  set (w0 := set_sock (schedule (drops_after ev)) w).
  set (api := system_message (system_prompt_at (now ev))
              :: messages ++ [user_message c]).
  set (T := (messages ++ [user_message c])
            ++ [assistant_message
                  (accumulate "" (fragments (chunks (upstream ev))))]).
  assert (client_state (sock w0) = CONNECTED) as Hc0 by done.
  assert (link (sock w0) = Some k) as Hl0 by (simpl; by rewrite Hdrop).
  destruct (answered_delivered (upstream ev) api w0 Hc0) as [Hdel Hlink].
  rewrite Hl0 in Hdel, Hlink. simpl in Hdel, Hlink.
  rewrite take_app_le in Hdel by (rewrite length_fmap; lia).
  rewrite <- fmap_take in Hdel.
  replace (k - S (length (fragments (chunks (upstream ev)))))%nat with O
    in Hlink by lia.
  set (w1 := answered (upstream ev) api w0) in *.
  set (w2 := saved WriteOk session_id T w1).
  assert (iteration session_id messages ev (incoming <$> later) w
          = (Ok (Continue T), w2)) as Hturn.
  { rewrite (iteration_chat _ _ c) by done. rewrite chat_turn_text by done.
    unfold conclude. apply String.eqb_neq in Hbuf. rewrite Hbuf. simpl.
    unfold bind at 1. rewrite save_chat_history_spec, Hdisk. reflexivity. }
  assert (∃ w', serve session_id messages (ev :: later) w = (Ok tt, w')
                ∧ active_connections w' !! session_id = None
                ∧ fs w' = fs w2 ∧ delivered (sock w') = delivered (sock w2))
    as (w' & -> & Hreg & Hfs & Hsock).
  { unfold serve, try_except. cbn [receive_loop]. unfold bind at 1.
    rewrite Hturn.
    rewrite receive_loop_dropped;
      [| by unfold w2, w1; simpl; rewrite answered_client_state | done].
    match goal with |- context [cleanup session_id ?w3] =>
      destruct (cleanup_deregisters session_id w3) as (w' & -> & Hreg & Hfs & Hsock)
    end; [done |].
    exists w'. by rewrite Hfs, Hsock. }
  simpl. rewrite Hfs, Hsock. split_and!; [done | | done].
  unfold w2, w1. simpl. rewrite answered_fs. simpl.
  by rewrite lookup_insert_eq.
Qed.

Lemma dropped_stream_is_persisted_and_deregistered_witness :
  delivered
    (sock (serve "s1" []
             [dropping_turn "hi" 1
                {| chunks := [fragment "Hel"; fragment "lo!"]; failure := None |}]
             connected_world).2)
    = delivered (sock connected_world)
      ++ (stream_response <$> take 1 (fragments [fragment "Hel"; fragment "lo!"]))
  ∧ fs (serve "s1" []
          [dropping_turn "hi" 1
             {| chunks := [fragment "Hel"; fragment "lo!"]; failure := None |}]
          connected_world).2 !! chat_path "s1"
    = Some (JsonText (JArr (JObj <$>
        ([] ++ [user_message "hi"])
        ++ [assistant_message
              (accumulate "" (fragments [fragment "Hel"; fragment "lo!"]))])))
  ∧ active_connections
      (serve "s1" []
         [dropping_turn "hi" 1
            {| chunks := [fragment "Hel"; fragment "lo!"]; failure := None |}]
         connected_world).2 !! "s1" = None.
Proof.
  apply (dropped_stream_is_persisted_and_deregistered "s1" [] "hi"
           (dropping_turn "hi" 1
              {| chunks := [fragment "Hel"; fragment "lo!"]; failure := None |})
           [] connected_world 1).
  - reflexivity.
  - reflexivity.
  - simpl. discriminate.
  - reflexivity.
  - discriminate.
  - reflexivity.
  - simpl. lia.
  - vm_compute. discriminate.
  - reflexivity.
Defined.

(** C6 as stated fails: two fragments are accumulated, both empty, the
    connection dropping after the first; nothing is written to the
    store. *)
Lemma dropped_stream_of_empty_fragments_is_not_persisted :
  delivered
    (sock (serve "s1" []
             [dropping_turn "hi" 1
                {| chunks := [fragment ""; fragment ""]; failure := None |}]
             connected_world).2)
    = [stream_response ""]
  ∧ fragments [fragment ""; fragment ""] = [""; ""]
  ∧ fs (serve "s1" []
          [dropping_turn "hi" 1
             {| chunks := [fragment ""; fragment ""]; failure := None |}]
          connected_world).2 !! chat_path "s1" = None.
Proof. vm_compute. split_and!; reflexivity. Qed.

(** ** The persisted transcript as an append log *)




(** ** A stream that fails *)

(** C3 (the code departs from it). The stream yields one fragment, the
    empty string, and then fails. The client is delivered that fragment
    and one error envelope, and no assistant message is saved; but the
    handler does not return to the loop for the next request: the chat
    message that follows is consumed unanswered, so the session sees a
    single upstream call and no further envelope. *)
Theorem failed_empty_stream_stops_serving :
  delivered
    (sock (serve "s1" []
             [turn "hi" {| chunks := [fragment ""];
                           failure := Some APIConnectionError |};
              turn "again" {| chunks := [fragment "ok"]; failure := None |}]
             connected_world).2)
    = [stream_response "";
       error_response "Could not connect to AI service."]
  ∧ length
      (upstream_calls
         (serve "s1" []
            [turn "hi" {| chunks := [fragment ""];
                          failure := Some APIConnectionError |};
             turn "again" {| chunks := [fragment "ok"]; failure := None |}]
            connected_world).2) = 1%nat
  ∧ fs (serve "s1" []
          [turn "hi" {| chunks := [fragment ""];
                        failure := Some APIConnectionError |};
           turn "again" {| chunks := [fragment "ok"]; failure := None |}]
          connected_world).2 = ∅.
Proof. vm_compute. split_and!; reflexivity. Qed.

(** * Further properties of the code *)

(** ** The budgeter *)

#[local] Arguments chat_path : simpl never.

Section BudgeterMore.

Implicit Types (history rest : list Message) (max_chars chars : Z).

Lemma content_len_nonneg msg n : content_len msg = Ok n → 0 <= n.
Proof.
  unfold content_len, py_len, str_len.
  destruct (default _ _); intros [= <-]; lia.
Qed.

Lemma sum_content_len_nonneg history : ∀ total,
  sum_content_len history = Ok total → 0 <= total.
Proof.
  induction history as [|msg history IH]; simpl; intros total.
  - intros [= <-]. lia.
  - destruct (content_len msg) as [n|] eqn:Hn; [simpl | done].
    destruct (sum_content_len history) as [t|]; [simpl | done].
    intros [= <-]. apply content_len_nonneg in Hn. specialize (IH t eq_refl). lia.
Qed.

Lemma content_len_raises msg e : content_len msg = Raise e → e = TypeError.
Proof.
  unfold content_len, py_len. destruct (default _ _); congruence.
Qed.

Lemma sum_content_len_raises history :
  forallb has_len history = false → sum_content_len history = Raise TypeError.
Proof.
  induction history as [|msg history IH]; simpl; [done |].
  unfold has_len at 1. destruct (content_len msg) as [n|e] eqn:Hn; simpl.
  - intros Hrest. by rewrite (IH Hrest).
  - intros _. by rewrite (content_len_raises _ _ Hn).
Qed.

(** The loop stops at the first suffix that fits: every longer suffix is
    over the budget. *)
Lemma trim_loop_minimal max_chars rest : ∀ chars sys_chars total,
  sum_content_len rest = Ok total →
  chars = sys_chars + total →
  ∃ k kept_chars,
    (k ≤ length rest)%nat
    ∧ trim_loop max_chars rest chars = Ok (drop k rest, sys_chars + kept_chars)
    ∧ ∀ j, (j < k)%nat →
        ∃ c, sum_content_len (drop j rest) = Ok c ∧ sys_chars + c > max_chars.
Proof.
  induction rest as [|msg rest IH]; intros chars sys_chars total; simpl.
  - intros [= <-] ->. exists 0%nat, 0. split_and!; [done.. | lia].
  - destruct (content_len msg) as [c0|] eqn:Hc; [simpl | done].
    destruct (sum_content_len rest) as [t|] eqn:Ht; [simpl | done].
    intros [= <-] ->. case_bool_decide as Hgt.
    + destruct (IH (sys_chars + (c0 + t) - c0) sys_chars t eq_refl ltac:(lia))
        as (k & kept & Hk & Hloop & Hmin).
      exists (S k), kept. split_and!; [lia | done |].
      intros [|j] Hj; simpl.
      * rewrite Hc, Ht. simpl. eexists. split; [done | lia].
      * apply Hmin. lia.
    + exists 0%nat, (c0 + t). split_and!; [lia | done | lia].
Qed.

End BudgeterMore.

(** X1. The budgeter drops no more than it must: the list it returns is
    the system message followed by the history without its first [k]
    messages, and dropping fewer than [k] would leave the context over the
    budget. *)
Theorem limit_context_drops_fewest
    (system_prompt : string) (history : list Message) (max_chars : Z)
    (model_name : string) :
  forallb has_len history = true →
  ∃ k,
    (k ≤ length history)%nat
    ∧ _limit_context_by_chars system_prompt history max_chars model_name
      = Ok (system_message system_prompt :: drop k history)
    ∧ ∀ j, (j < k)%nat →
        ∃ c, sum_content_len (drop j history) = Ok c
             ∧ str_len system_prompt + c > max_chars.
Proof.
  intros Hlen. destruct (sum_content_len_total _ Hlen) as [total Htotal].
  unfold _limit_context_by_chars. rewrite Htotal. simpl.
  case_bool_decide as Hfit.
  - exists 0%nat. split_and!; [lia | done | lia].
  - destruct (trim_loop_minimal max_chars history _ (str_len system_prompt) total
                Htotal eq_refl) as (k & kept & Hk & -> & Hmin).
    simpl. eauto.
Qed.

Lemma limit_context_drops_fewest_witness :
  ∃ k,
    (k ≤ length [user_message "hello"; assistant_message "world!";
                 user_message "bye"])%nat
    ∧ _limit_context_by_chars "sys"
        [user_message "hello"; assistant_message "world!"; user_message "bye"]
        12 DEFAULT_MODEL
      = Ok (system_message "sys"
            :: drop k [user_message "hello"; assistant_message "world!";
                       user_message "bye"])
    ∧ ∀ j, (j < k)%nat →
        ∃ c, sum_content_len
               (drop j [user_message "hello"; assistant_message "world!";
                        user_message "bye"]) = Ok c
             ∧ str_len "sys" + c > 12.
Proof.
  apply (limit_context_drops_fewest "sys"
           [user_message "hello"; assistant_message "world!"; user_message "bye"]
           12 DEFAULT_MODEL).
  reflexivity.
Defined.

(** X2. Trimming is idempotent: giving the budgeter the conversational
    messages it kept returns the same list again. *)
Theorem limit_context_idempotent
    (system_prompt : string) (history kept : list Message) (max_chars : Z)
    (model_name : string) :
  _limit_context_by_chars system_prompt history max_chars model_name
    = Ok (system_message system_prompt :: kept) →
  _limit_context_by_chars system_prompt kept max_chars model_name
    = Ok (system_message system_prompt :: kept).
Proof.
  intros Hret.
  destruct (forallb has_len history) eqn:Hlen.
  2:{ apply sum_content_len_raises in Hlen.
      unfold _limit_context_by_chars in Hret. by rewrite Hlen in Hret. }
  destruct (limit_context_spec system_prompt history max_chars model_name Hlen)
    as (k & kept_chars & Hret' & Hsum & Hfit).
  rewrite Hret in Hret'. injection Hret' as ->.
  unfold _limit_context_by_chars. rewrite Hsum. simpl.
  destruct Hfit as [Hfit|Hnil].
  - by rewrite bool_decide_eq_true_2.
  - rewrite Hnil in *. by case_bool_decide.
Qed.

Lemma limit_context_idempotent_witness :
  _limit_context_by_chars "sys" [assistant_message "world!"] 9 DEFAULT_MODEL
  = Ok (system_message "sys" :: [assistant_message "world!"]).
Proof.
  apply (limit_context_idempotent "sys"
           [user_message "hello"; assistant_message "world!"]
           [assistant_message "world!"] 9 DEFAULT_MODEL).
  reflexivity.
Defined.

(** X3. When the system prompt alone is over the budget, the budgeter
    drops the whole history and returns the system message alone. *)
Theorem limit_context_system_over_budget
    (system_prompt : string) (history : list Message) (max_chars : Z)
    (model_name : string) :
  forallb has_len history = true →
  str_len system_prompt > max_chars →
  _limit_context_by_chars system_prompt history max_chars model_name
    = Ok [system_message system_prompt].
Proof.
  intros Hlen Hover.
  destruct (limit_context_spec system_prompt history max_chars model_name Hlen)
    as (k & kept_chars & -> & Hsum & [Hfit | ->]); [|done].
  apply sum_content_len_nonneg in Hsum. lia.
Qed.

Lemma limit_context_system_over_budget_witness :
  _limit_context_by_chars "a long system prompt"
    [user_message "hello"; assistant_message "world!"] 5 DEFAULT_MODEL
  = Ok [system_message "a long system prompt"].
Proof.
  apply (limit_context_system_over_budget "a long system prompt"
           [user_message "hello"; assistant_message "world!"] 5 DEFAULT_MODEL).
  - reflexivity.
  - reflexivity.
Defined.


(** X5. The history is returned untrimmed exactly when the context is
    within the budget or there is no history to trim. *)
Theorem limit_context_untrimmed_iff
    (system_prompt : string) (history : list Message) (max_chars : Z)
    (model_name : string) (total : Z) :
  sum_content_len history = Ok total →
  (_limit_context_by_chars system_prompt history max_chars model_name
     = Ok (system_message system_prompt :: history)
   ↔ str_len system_prompt + total <= max_chars ∨ history = []).
Proof.
  intros Hsum. split.
  - intros Hret.
    destruct (decide (str_len system_prompt + total <= max_chars)) as [|Hover];
      [by left | right].
    destruct history as [|m rest]; [done |]. exfalso.
    destruct (limit_context_over_budget system_prompt (m :: rest) max_chars
                model_name total Hsum ltac:(lia) ltac:(done))
      as (trimmed & Htrim & Hshort).
    rewrite Hret in Htrim. injection Htrim as <-. simpl in Hshort. lia.
  - unfold _limit_context_by_chars. rewrite Hsum. simpl. intros [Hfit | ->].
    + by rewrite bool_decide_eq_true_2.
    + by case_bool_decide.
Qed.

Lemma limit_context_untrimmed_iff_witness :
  _limit_context_by_chars "sys"
    [user_message "hello"; assistant_message "world!"] 14 DEFAULT_MODEL
    = Ok (system_message "sys"
          :: [user_message "hello"; assistant_message "world!"])
  ↔ str_len "sys" + 11 <= 14
    ∨ [user_message "hello"; assistant_message "world!"] = [].
Proof.
  apply (limit_context_untrimmed_iff "sys"
           [user_message "hello"; assistant_message "world!"] 14 DEFAULT_MODEL 11).
  reflexivity.
Defined.

(** ** The transcript store *)

Section StoreMore.

Implicit Types (w : world) (T : list Message) (s t : string).

Lemma string_length_app s t :
  String.length (s +:+ t) = (String.length s + String.length t)%nat.
Proof. induction s as [|a s IH]; simpl; [done | by rewrite IH]. Qed.




Lemma stored_other io session_id T files path :
  path ≠ chat_path session_id →
  stored io session_id T files !! path = files !! path.
Proof.
  intros Hne. destruct io; simpl; [|done|]; by rewrite lookup_insert_ne.
Qed.

Lemma load_result session_id io w :
  (load_chat_history io session_id w).1
  = Ok (match io with
        | ReadOk => persisted session_id w
        | ReadFails _ => []
        end).
Proof.
  destruct io as [|e].
  - by destruct (load_chat_history_readable session_id w) as (w' & -> & _).
  - by destruct (load_chat_history_unreadable e session_id w) as (w' & -> & _).
Qed.

End StoreMore.




(** X8. One message without a role or a content field spoils the record:
    after saving a transcript that contains one, loading the session
    returns the empty list, not the other messages. *)
Theorem load_after_save_of_invalid_transcript
    (session_id : string) (T : list Message) (w : world) :
  valid_transcript T = false →
  (load_chat_history ReadOk session_id
     (save_chat_history WriteOk session_id T w).2).1 = Ok [].
Proof.
  intros HT. rewrite save_chat_history_spec, load_result. simpl.
  unfold persisted, well_formed_record. simpl.
  by rewrite lookup_insert_eq, forallb_JObj, HT.
Qed.

Lemma load_after_save_of_invalid_transcript_witness :
  (load_chat_history ReadOk "s1"
     (save_chat_history WriteOk "s1"
        [user_message "hi"; {[ "role" := JStr "assistant" ]}] fresh_world).2).1
  = Ok [].
Proof.
  apply (load_after_save_of_invalid_transcript "s1"
           [user_message "hi"; {[ "role" := JStr "assistant" ]}] fresh_world).
  reflexivity.
Defined.

(** ** Requests that are not chat messages *)

Section Requests.

Implicit Types (w : world) (messages : list Message) (ev : event).

(** A text frame received on a live connection is parsed and validated;
    the three lemmas give the pass through the loop body for a frame that
    is not JSON, one that fails validation, and one that is valid. *)
Lemma iteration_bad_json session_id messages ev later raw w :
  client_state (sock w) = CONNECTED →
  link (sock w) ≠ Some O →
  incoming ev = FText (NotJson raw) →
  iteration session_id messages ev later w
  = (Ok (Continue messages),
     sent (error_response "Invalid JSON format.")
       (set_log (λ l, l ++ [(WARNING, "Received invalid JSON")])
          (set_sock (schedule (drops_after ev)) w))).
Proof.
  intros Hc Hl Hfr. unfold iteration. unfold bind at 1. unfold try_except.
  unfold bind at 1.
  destruct (receive_text_cases (incoming ev) (drops_after ev) w)
    as [[Hc' _]|[(_ & [Hl'|Hfr'] & _)|(_ & _ & text & Hfr' & ->)]];
    [done | done | by rewrite Hfr in Hfr' |].
  rewrite Hfr in Hfr'. injection Hfr' as <-. simpl. run.
  by rewrite send_ws_message_spec.
Qed.

Lemma iteration_bad_structure session_id messages ev later data e w :
  client_state (sock w) = CONNECTED →
  link (sock w) ≠ Some O →
  incoming ev = FText (JsonText data) →
  model_validate (validation_report ev) data = Raise e →
  iteration session_id messages ev later w
  = (Ok (Continue messages),
     sent (error_response
             ("Invalid message structure: " +:+ validation_report ev))
       (set_log (λ l, l ++ [(WARNING, "Received invalid message structure")])
          (set_sock (schedule (drops_after ev)) w))).
Proof.
  intros Hc Hl Hfr Hv. unfold iteration. unfold bind at 1. unfold try_except.
  unfold bind at 1.
  destruct (receive_text_cases (incoming ev) (drops_after ev) w)
    as [[Hc' _]|[(_ & [Hl'|Hfr'] & _)|(_ & _ & text & Hfr' & ->)]];
    [done | done | by rewrite Hfr in Hfr' |].
  rewrite Hfr in Hfr'. injection Hfr' as <-. cbn [json_loads lift].
  unfold bind at 1. unfold lift at 1. cbn beta iota.
  rewrite Hv. apply model_validate_raises in Hv as ->. run.
  by rewrite send_ws_message_spec.
Qed.

Lemma iteration_valid session_id messages ev later data req w :
  client_state (sock w) = CONNECTED →
  link (sock w) ≠ Some O →
  incoming ev = FText (JsonText data) →
  model_validate (validation_report ev) data = Ok req →
  iteration session_id messages ev later w
  = match request_content req with
    | Some c =>
        if String.eqb (request_type req) "chat_message"
           && negb (String.eqb c "")
        then chat_turn session_id messages c ev later
        else ret (Continue messages)
    | None => ret (Continue messages)
    end (set_sock (schedule (drops_after ev)) w).
Proof.
  intros Hc Hl Hfr Hv. unfold iteration. unfold bind at 1. unfold try_except.
  unfold bind at 1.
  destruct (receive_text_cases (incoming ev) (drops_after ev) w)
    as [[Hc' _]|[(_ & [Hl'|Hfr'] & _)|(_ & _ & text & Hfr' & ->)]];
    [done | done | by rewrite Hfr in Hfr' |].
  rewrite Hfr in Hfr'. injection Hfr' as <-. cbn [json_loads lift].
  unfold bind at 1. unfold lift at 1. cbn beta iota.
  rewrite Hv. by run.
Qed.

Lemma receive_loop_continue session_id messages messages' ev later w w1 :
  iteration session_id messages ev (incoming <$> later) w
    = (Ok (Continue messages'), w1) →
  receive_loop session_id messages (ev :: later) w
  = receive_loop session_id messages' later w1.
Proof. intros Hit. cbn [receive_loop]. unfold bind at 1. by rewrite Hit. Qed.

End Requests.

(** X9. A frame that is not JSON is answered by exactly one error
    envelope, "Invalid JSON format."; the transcript in memory, the store
    and the upstream calls are as before, and the loop goes on with the
    client's next step on a connection that is still open. *)
Theorem malformed_json_is_acknowledged
    (session_id : string) (messages : list Message) (ev : event)
    (later : list event) (raw : string) (w : world) :
  client_state (sock w) = CONNECTED →
  link (sock w) ≠ Some O →
  drops_after ev = None →
  incoming ev = FText (NotJson raw) →
  ∃ w1,
    receive_loop session_id messages (ev :: later) w
    = receive_loop session_id messages later w1
    ∧ delivered (sock w1)
      = delivered (sock w) ++ [error_response "Invalid JSON format."]
    ∧ fs w1 = fs w
    ∧ upstream_calls w1 = upstream_calls w
    ∧ client_state (sock w1) = CONNECTED.
Proof.
  intros Hc Hl Hdrop Hfr. eexists. split.
  { apply receive_loop_continue. by apply (iteration_bad_json _ _ _ _ raw). }
  rewrite sent_fs, sent_upstream_calls, sent_client_state. simpl.
  split_and!; try done.
  set (w0 := set_log _ _).
  destruct (sent_delivered (error_response "Invalid JSON format.") w0 Hc)
    as [-> _].
  simpl. rewrite Hdrop. by rewrite carried_one.
Qed.

Lemma malformed_json_is_acknowledged_witness :
  ∃ w1,
    receive_loop "s1" [] [client_sends (FText (NotJson "{oops")) ""]
      connected_world
    = receive_loop "s1" [] [] w1
    ∧ delivered (sock w1)
      = delivered (sock connected_world)
        ++ [error_response "Invalid JSON format."]
    ∧ fs w1 = fs connected_world
    ∧ upstream_calls w1 = upstream_calls connected_world
    ∧ client_state (sock w1) = CONNECTED.
Proof.
  apply (malformed_json_is_acknowledged "s1" []
           (client_sends (FText (NotJson "{oops")) "") [] "{oops"
           connected_world); [reflexivity | discriminate | reflexivity..].
Defined.

(** X10. A JSON frame that fails the validation of [WebSocketRequest] is
    answered by exactly one error envelope carrying the validation report;
    the transcript, the store and the upstream calls are as before, and
    the loop goes on. *)
Theorem invalid_request_is_acknowledged
    (session_id : string) (messages : list Message) (ev : event)
    (later : list event) (data : json) (e : exn) (w : world) :
  client_state (sock w) = CONNECTED →
  link (sock w) ≠ Some O →
  drops_after ev = None →
  incoming ev = FText (JsonText data) →
  model_validate (validation_report ev) data = Raise e →
  ∃ w1,
    receive_loop session_id messages (ev :: later) w
    = receive_loop session_id messages later w1
    ∧ delivered (sock w1)
      = delivered (sock w)
        ++ [error_response
              ("Invalid message structure: " +:+ validation_report ev)]
    ∧ fs w1 = fs w
    ∧ upstream_calls w1 = upstream_calls w
    ∧ client_state (sock w1) = CONNECTED.
Proof.
  intros Hc Hl Hdrop Hfr Hv. eexists. split.
  { apply receive_loop_continue.
    by apply (iteration_bad_structure _ _ _ _ data e). }
  rewrite sent_fs, sent_upstream_calls, sent_client_state. simpl.
  split_and!; try done.
  set (w0 := set_log _ _).
  destruct (sent_delivered
              (error_response
                 ("Invalid message structure: " +:+ validation_report ev))
              w0 Hc) as [-> _].
  simpl. rewrite Hdrop. by rewrite carried_one.
Qed.

Lemma invalid_request_is_acknowledged_witness :
  ∃ w1,
    receive_loop "s1" []
      [client_sends (FText (JsonText (JObj {[ "content" := JStr "hi" ]})))
         "type: Field required"]
      connected_world
    = receive_loop "s1" [] [] w1
    ∧ delivered (sock w1)
      = delivered (sock connected_world)
        ++ [error_response
              ("Invalid message structure: " +:+ "type: Field required")]
    ∧ fs w1 = fs connected_world
    ∧ upstream_calls w1 = upstream_calls connected_world
    ∧ client_state (sock w1) = CONNECTED.
Proof.
  apply (invalid_request_is_acknowledged "s1" []
           (client_sends
              (FText (JsonText (JObj {[ "content" := JStr "hi" ]})))
              "type: Field required")
           [] (JObj {[ "content" := JStr "hi" ]})
           (ValidationError "type: Field required") connected_world);
    [reflexivity | discriminate | reflexivity..].
Defined.

(** X11. A valid request that is not a chat message with content (another
    type, or a chat message whose content is absent or empty) is ignored:
    nothing is delivered, logged, stored or sent upstream, the transcript
    is as before, and the loop goes on. *)
Theorem other_requests_are_ignored
    (session_id : string) (messages : list Message) (ev : event)
    (later : list event) (data : json) (req : WebSocketRequest) (w : world) :
  client_state (sock w) = CONNECTED →
  link (sock w) ≠ Some O →
  incoming ev = FText (JsonText data) →
  model_validate (validation_report ev) data = Ok req →
  request_type req ≠ "chat_message"
  ∨ request_content req = None ∨ request_content req = Some "" →
  ∃ w1,
    receive_loop session_id messages (ev :: later) w
    = receive_loop session_id messages later w1
    ∧ delivered (sock w1) = delivered (sock w)
    ∧ log w1 = log w
    ∧ fs w1 = fs w
    ∧ upstream_calls w1 = upstream_calls w.
Proof.
  intros Hc Hl Hfr Hv Hother.
  exists (set_sock (schedule (drops_after ev)) w). split; [|done].
  apply receive_loop_continue. rewrite (iteration_valid _ _ _ _ data req) by done.
  destruct (request_content req) as [c|] eqn:Hcontent; [|done].
  destruct Hother as [Hty|[?|[= ->]]]; [|done|].
  - apply String.eqb_neq in Hty. by rewrite Hty.
  - by rewrite andb_false_r.
Qed.

Lemma other_requests_are_ignored_witness :
  ∃ w1,
    receive_loop "s1" []
      [client_sends (FText (JsonText (JObj {[ "type" := JStr "ping" ]}))) ""]
      connected_world
    = receive_loop "s1" [] [] w1
    ∧ delivered (sock w1) = delivered (sock connected_world)
    ∧ log w1 = log connected_world
    ∧ fs w1 = fs connected_world
    ∧ upstream_calls w1 = upstream_calls connected_world.
Proof.
  apply (other_requests_are_ignored "s1" []
           (client_sends (FText (JsonText (JObj {[ "type" := JStr "ping" ]})))
              "")
           [] (JObj {[ "type" := JStr "ping" ]})
           {| request_type := "ping"; request_content := None |}
           connected_world);
    [reflexivity | discriminate | reflexivity | reflexivity |].
  left. discriminate.
Defined.

(** ** Turns that are answered *)

(** X12. When the stream ends normally with content accumulated, on a
    link that stays up, the client is delivered the fragments in order
    and then the ["[DONE]"] envelope, the transcript extended by the user
    message and the assistant message holding the concatenated fragments
    is saved, and the loop goes on with that transcript. *)
Theorem completed_stream_is_relayed_and_saved
    (session_id : string) (messages : list Message) (c : string) (ev : event)
    (later : list frame) (w : world) :
  forallb text_message messages = true →
  client_state (sock w) = CONNECTED →
  link (sock w) = None →
  failure (upstream ev) = None →
  accumulate "" (fragments (chunks (upstream ev))) ≠ "" →
  ∃ w',
    chat_turn session_id messages c ev later w
    = (Ok (Continue ((messages ++ [user_message c])
                      ++ [assistant_message
                            (accumulate "" (fragments (chunks (upstream ev))))])),
       w')
    ∧ delivered (sock w')
      = delivered (sock w)
        ++ (stream_response <$> fragments (chunks (upstream ev)))
        ++ [stream_response "[DONE]"]
    ∧ fs w' = stored (disk ev) session_id
                ((messages ++ [user_message c])
                 ++ [assistant_message
                       (accumulate "" (fragments (chunks (upstream ev))))])
                (fs w).
Proof.
  intros Htext Hc Hl Hend Hbuf. rewrite chat_turn_text by done.
  unfold conclude. apply String.eqb_neq in Hbuf. rewrite Hbuf. simpl.
  unfold bind at 1. rewrite save_chat_history_spec. run.
  eexists. split; [reflexivity |].
  destruct (answered_delivered (upstream ev)
              (system_message (system_prompt_at (now ev))
               :: messages ++ [user_message c]) w Hc) as [Hdel _].
  rewrite Hl in Hdel. unfold closing in Hdel. rewrite Hend in Hdel.
  simpl in Hdel. split.
  - rewrite <- Hdel. by destruct (disk ev).
  - rewrite <- (answered_fs (upstream ev)
                  (system_message (system_prompt_at (now ev))
                   :: messages ++ [user_message c]) w).
    by destruct (disk ev).
Qed.

Lemma completed_stream_is_relayed_and_saved_witness :
  ∃ w',
    chat_turn "s1" [] "hi"
      (turn "hi" {| chunks := [fragment "Hel"; fragment "lo"];
                    failure := None |})
      [] connected_world
    = (Ok (Continue [user_message "hi"; assistant_message "Hello"]), w')
    ∧ delivered (sock w')
      = [stream_response "Hel"; stream_response "lo";
         stream_response "[DONE]"]
    ∧ fs w' = stored WriteOk "s1"
                [user_message "hi"; assistant_message "Hello"] ∅.
Proof.
  apply (completed_stream_is_relayed_and_saved "s1" [] "hi"
           (turn "hi" {| chunks := [fragment "Hel"; fragment "lo"];
                         failure := None |})
           [] connected_world); [reflexivity.. |].
  vm_compute. discriminate.
Defined.

(** X13. When the stream raises after content has been accumulated, on a link
    that stays up, the client is delivered the fragments and then one
    error envelope, the exchange is saved, and the loop goes on. *)
Theorem failed_stream_with_content
    (session_id : string) (messages : list Message) (c : string) (ev : event)
    (later : list frame) (w : world) (e : exn) :
  forallb text_message messages = true →
  client_state (sock w) = CONNECTED →
  link (sock w) = None →
  failure (upstream ev) = Some e →
  accumulate "" (fragments (chunks (upstream ev))) ≠ "" →
  ∃ w',
    chat_turn session_id messages c ev later w
    = (Ok (Continue ((messages ++ [user_message c])
                      ++ [assistant_message
                            (accumulate "" (fragments (chunks (upstream ev))))])),
       w')
    ∧ delivered (sock w')
      = delivered (sock w)
        ++ (stream_response <$> fragments (chunks (upstream ev)))
        ++ [error_response (failure_detail e)]
    ∧ fs w' = stored (disk ev) session_id
                ((messages ++ [user_message c])
                 ++ [assistant_message
                       (accumulate "" (fragments (chunks (upstream ev))))])
                (fs w).
Proof.
  intros Htext Hc Hl Hfail Hbuf. rewrite chat_turn_text by done.
  unfold conclude. apply String.eqb_neq in Hbuf. rewrite Hbuf. simpl.
  unfold bind at 1. rewrite save_chat_history_spec. run.
  eexists. split; [reflexivity |].
  destruct (answered_delivered (upstream ev)
              (system_message (system_prompt_at (now ev))
               :: messages ++ [user_message c]) w Hc) as [Hdel _].
  rewrite Hl in Hdel. unfold closing in Hdel. rewrite Hfail in Hdel.
  simpl in Hdel. split.
  - rewrite <- Hdel. by destruct (disk ev).
  - rewrite <- (answered_fs (upstream ev)
                  (system_message (system_prompt_at (now ev))
                   :: messages ++ [user_message c]) w).
    by destruct (disk ev).
Qed.

Lemma failed_stream_with_content_witness :
  ∃ w',
    chat_turn "s1" [] "hi"
      (turn "hi" {| chunks := [fragment "Hel"; fragment "lo"];
                    failure := Some APIConnectionError |})
      [] connected_world
    = (Ok (Continue [user_message "hi"; assistant_message "Hello"]), w')
    ∧ delivered (sock w')
      = [stream_response "Hel"; stream_response "lo";
         error_response (failure_detail APIConnectionError)]
    ∧ fs w' = stored WriteOk "s1"
                [user_message "hi"; assistant_message "Hello"] ∅.
Proof.
  apply (failed_stream_with_content "s1" [] "hi"
           (turn "hi" {| chunks := [fragment "Hel"; fragment "lo"];
                         failure := Some APIConnectionError |})
           [] connected_world APIConnectionError); [reflexivity.. |].
  vm_compute. discriminate.
Defined.

(** X14. When the transcript with the new user message is within the
    budget, the turn makes exactly one upstream call and the list it
    passes is the budgeter's output: the system message for the current
    time followed by the whole transcript. *)
Theorem upstream_call_within_budget
    (session_id : string) (messages : list Message) (c : string) (ev : event)
    (later : list frame) (w : world) (total : Z) :
  forallb text_message messages = true →
  sum_content_len (messages ++ [user_message c]) = Ok total →
  str_len (system_prompt_at (now ev)) + total <= MAX_CONTEXT_CHARS →
  ∃ trimmed,
    _limit_context_by_chars (system_prompt_at (now ev))
      (messages ++ [user_message c]) MAX_CONTEXT_CHARS DEFAULT_MODEL = Ok trimmed
    ∧ upstream_calls (chat_turn session_id messages c ev later w).2
      = upstream_calls w ++ [trimmed].
Proof.
  intros Htext Hsum Hfit. eexists. split.
  - unfold _limit_context_by_chars. rewrite Hsum. simpl.
    by rewrite bool_decide_eq_true_2.
  - by apply chat_turn_upstream_call.
Qed.

Lemma upstream_call_within_budget_witness :
  ∃ trimmed,
    _limit_context_by_chars (system_prompt_at "2025-01-01 00:00:00 UTC")
      [user_message "hi"] MAX_CONTEXT_CHARS DEFAULT_MODEL = Ok trimmed
    ∧ upstream_calls
        (chat_turn "s1" [] "hi"
           (turn "hi" {| chunks := [fragment "Hello"]; failure := None |})
           [] connected_world).2
      = upstream_calls connected_world ++ [trimmed].
Proof.
  apply (upstream_call_within_budget "s1" [] "hi"
           (turn "hi" {| chunks := [fragment "Hello"]; failure := None |})
           [] connected_world 2); [reflexivity | reflexivity |].
  vm_compute. discriminate.
Defined.

(** ** Sending *)

(** X15. [send_ws_message] never raises and never touches the store; it
    delivers the envelope when the client is connected and the link is
    up, and nothing otherwise. *)
Theorem send_ws_message_never_raises (msg : WebSocketResponse) (w : world) :
  ∃ w',
    send_ws_message msg w = (Ok tt, w')
    ∧ fs w' = fs w
    ∧ client_state (sock w') = client_state (sock w)
    ∧ delivered (sock w')
      = delivered (sock w)
        ++ (if bool_decide (client_state (sock w) = CONNECTED
                            ∧ link (sock w) ≠ Some O)
            then [msg] else []).
Proof.
  exists (sent msg w). rewrite send_ws_message_spec, sent_fs, sent_client_state.
  split_and!; try done. unfold sent.
  destruct (decide (client_state (sock w) = CONNECTED)) as [Hc|Hc].
  - rewrite (bool_decide_eq_true_2 _ Hc).
    destruct (link (sock w)) as [[|k]|] eqn:Hl; simpl.
    + rewrite bool_decide_eq_false_2 by (by intros [_ ?]). by rewrite app_nil_r.
    + by rewrite bool_decide_eq_true_2.
    + by rewrite bool_decide_eq_true_2.
  - rewrite (bool_decide_eq_false_2 _ Hc).
    rewrite bool_decide_eq_false_2 by (by intros [? _]). by rewrite app_nil_r.
Qed.

(** ** The session as a whole *)

Section SessionFrames.

Implicit Types (w : world) (messages : list Message) (ev : event).

Lemma load_chat_history_within {B} (proj : world → B) io session_id :
  (∀ f w, proj (set_log f w) = proj w) →
  within (unchanged proj) (load_chat_history io session_id).
Proof.
  intros proj_log. unfold load_chat_history, read_json.
  frame; by apply logger_within.
Qed.

(** The [finally] block never raises; it removes the session from the
    registry and closes the socket unless the client has disconnected. *)
Lemma cleanup_spec session_id w :
  ∃ w',
    cleanup session_id w = (Ok tt, w')
    ∧ active_connections w' = delete session_id (active_connections w)
    ∧ fs w' = fs w
    ∧ delivered (sock w') = delivered (sock w)
    ∧ upstream_calls w' = upstream_calls w
    ∧ close_code (sock w')
      = if bool_decide (client_state (sock w) ≠ DISCONNECTED)
        then Some 1011 else close_code (sock w).
Proof.
  unfold cleanup, close. run. simpl.
  destruct (bool_decide (is_Some (active_connections w !! session_id))) eqn:Hreg;
    run; simpl;
    destruct (bool_decide (client_state (sock w) ≠ DISCONNECTED)); run; simpl;
    eexists; split_and!; try done; simpl.
  all: apply bool_decide_eq_false in Hreg; apply eq_None_not_Some in Hreg.
  all: symmetry; by apply delete_id.
Qed.

(** The receive loop changes no registry entry and no file but the
    session's own. *)
Lemma receive_loop_frame session_id script : ∀ messages w r w',
  receive_loop session_id messages script w = (r, w') →
  active_connections w' = active_connections w
  ∧ ∀ path, path ≠ chat_path session_id → fs w' !! path = fs w !! path.
Proof.
  assert (Hit : ∀ messages ev later w r w1,
    iteration session_id messages ev later w = (r, w1) →
    active_connections w1 = active_connections w
    ∧ ∀ path, path ≠ chat_path session_id → fs w1 !! path = fs w !! path).
  { intros messages ev later w r w1 Hit.
    apply iteration_store in Hit as [Hac Hit]. split; [done |].
    intros path Hpath.
    destruct Hit as [(c & a & _ & _ & _ & _ & ->)|[-> _]]; [|done].
    by apply stored_other. }
  induction script as [|ev later IH]; intros messages w r w';
    cbn [receive_loop]; unfold bind at 1.
  - destruct (iteration session_id messages hangup [] w) as [r1 w1] eqn:Hrun.
    apply Hit in Hrun. destruct r1; intros [= <- <-]; done.
  - destruct (iteration session_id messages ev (incoming <$> later) w)
      as [r1 w1] eqn:Hrun.
    apply Hit in Hrun as [Hac Hfs].
    destruct r1 as [[messages'|]|e]; [|by intros [= <- <-]..].
    intros Hrest. apply IH in Hrest as [Hac' Hfs']. split.
    + by rewrite Hac'.
    + intros path Hpath. by rewrite Hfs', Hfs.
Qed.

(** The handler around the loop never raises: it catches what the loop
    raises and then cleans up. *)
Lemma serve_spec session_id messages script w :
  serve session_id messages script w
  = (Ok tt,
     (cleanup session_id
        match receive_loop session_id messages script w with
        | (Ok _, w1) => w1
        | (Raise e, w1) => caught e w1
        end).2).
Proof.
  unfold serve, try_except.
  destruct (receive_loop session_id messages script w) as [[[]|e] w1].
  - by destruct (cleanup_spec session_id w1) as (w2 & -> & _).
  - assert (match e with
            | WebSocketDisconnect =>
                logger INFO "WebSocket disconnected unexpectedly"
            | _ =>
                logger ERROR "Unexpected error in WebSocket handler";;
                send_ws_message (error_response
                  "A critical server error occurred. Connection closing.")
            end w1 = (Ok tt, caught e w1)) as ->.
    { destruct e; run; by rewrite ?send_ws_message_spec. }
    by destruct (cleanup_spec session_id (caught e w1)) as (w2 & -> & _).
Qed.

Lemma caught_frame e w :
  active_connections (caught e w) = active_connections w
  ∧ fs (caught e w) = fs w
  ∧ upstream_calls (caught e w) = upstream_calls w.
Proof.
  destruct e; simpl;
    by rewrite ?sent_active_connections, ?sent_fs, ?sent_upstream_calls.
Qed.

(** So the handler changes no file but the session's own, and in the end
    the session is not in the registry. *)
Lemma serve_frame session_id messages script w :
  active_connections (serve session_id messages script w).2
    = delete session_id (active_connections w)
  ∧ ∀ path, path ≠ chat_path session_id →
      fs (serve session_id messages script w).2 !! path = fs w !! path.
Proof.
  rewrite serve_spec. simpl.
  destruct (receive_loop session_id messages script w) as [[[]|e] w1] eqn:Hloop;
    apply receive_loop_frame in Hloop as [Hac Hfs].
  - destruct (cleanup_spec session_id w1) as (w2 & -> & Hac2 & Hfs2 & _).
    simpl. rewrite Hac2, Hfs2, Hac. split; [done | exact Hfs].
  - destruct (caught_frame e w1) as (Hac1 & Hfs1 & _).
    destruct (cleanup_spec session_id (caught e w1))
      as (w2 & -> & Hac2 & Hfs2 & _).
    simpl. rewrite Hac2, Hfs2, Hac1, Hfs1, Hac. split; [done | exact Hfs].
Qed.

(** An accepted connection is registered, reads the history and enters
    the handler. *)
Lemma accepted_session o session_id script w :
  uuid_parses o = true →
  ∃ messages w1,
    websocket_endpoint o session_id script w
    = serve session_id messages script w1
    ∧ active_connections w1 = <[session_id := handle o]> (active_connections w)
    ∧ fs w1 = fs w
    ∧ upstream_calls w1 = upstream_calls w
    ∧ delivered (sock w1) = delivered (sock w)
    ∧ client_state (sock w1) = CONNECTED
    ∧ link (sock w1) = link (sock w)
    ∧ (load_chat_history (read o) session_id w).1 = Ok messages.
Proof.
  intros Huuid. unfold websocket_endpoint. rewrite Huuid. simpl.
  unfold bind at 1, modify at 1. unfold bind at 1, logger at 1, modify at 1.
  unfold bind at 1, modify at 1. unfold bind at 1.
  set (w0 := set_active_connections _ _).
  pose proof (load_result session_id (read o) w0) as Hres.
  pose proof (load_result session_id (read o) w) as Hres'.
  assert (persisted session_id w0 = persisted session_id w) as Hp by done.
  rewrite Hp, <- Hres' in Hres.
  pose proof (load_chat_history_within active_connections (read o) session_id
                ltac:(done) w0) as Hac.
  pose proof (load_chat_history_within fs (read o) session_id
                ltac:(done) w0) as Hfs.
  pose proof (load_chat_history_within upstream_calls (read o) session_id
                ltac:(done) w0) as Hcalls.
  pose proof (load_chat_history_within sock (read o) session_id
                ltac:(done) w0) as Hsock.
  unfold unchanged in *.
  destruct (load_chat_history (read o) session_id w0) as [[messages|e] w1];
    simpl in *; [|by rewrite Hres' in Hres].
  exists messages, w1. rewrite Hac, Hfs, Hcalls, Hsock. simpl.
  split_and!; done.
Qed.

End SessionFrames.



(** X17. A session's handler writes to no file but the session's own:
    every other file of the store is after [websocket_endpoint] what it
    was before, for every script and every outcome of the environment. *)
Theorem session_touches_only_its_own_file
    (o : opening) (session_id : string) (script : list event) (w : world)
    (path : string) :
  path ≠ chat_path session_id →
  fs (websocket_endpoint o session_id script w).2 !! path = fs w !! path.
Proof.
  intros Hpath. destruct (uuid_parses o) eqn:Huuid.
  - destruct (accepted_session o session_id script w Huuid)
      as (messages & w1 & -> & _ & Hfs & _).
    destruct (serve_frame session_id messages script w1) as [_ ->]; [|done].
    by rewrite Hfs.
  - unfold websocket_endpoint. by rewrite Huuid.
Qed.

Lemma session_touches_only_its_own_file_witness :
  fs (websocket_endpoint {| uuid_parses := true; handle := 1; read := ReadOk |}
        "s1"
        [turn "hi" {| chunks := [fragment "Hello"]; failure := None |}]
        fresh_world).2 !! chat_path "s2"
  = fs fresh_world !! chat_path "s2".
Proof.
  apply (session_touches_only_its_own_file
           {| uuid_parses := true; handle := 1; read := ReadOk |} "s1"
           [turn "hi" {| chunks := [fragment "Hello"]; failure := None |}]
           fresh_world (chat_path "s2")).
  vm_compute. discriminate.
Defined.


(** ** How a session ends *)

Section Endings.

Implicit Types (w : world) (messages : list Message) (ev : event).

(** The client closes: the loop ends. *)
Lemma iteration_disconnect session_id messages ev later w :
  client_state (sock w) = CONNECTED →
  incoming ev = FDisconnect →
  iteration session_id messages ev later w
  = (Ok Break,
     set_log (λ l, l ++ [(INFO, "WebSocket disconnected (client closed)")])
       (set_sock (set_client_state DISCONNECTED) w)).
Proof.
  intros Hc Hfr. unfold iteration. unfold bind at 1. unfold try_except.
  unfold bind at 1.
  destruct (receive_text_cases (incoming ev) (drops_after ev) w)
    as [[Hc' _]|[(_ & _ & ->)|(_ & _ & text & Hfr' & _)]];
    [done | | by rewrite Hfr in Hfr'].
  by run.
Qed.

(** A receive after the disconnect raises [RuntimeError]: the loop ends,
    and the error envelope it tries to send is not sent. *)
Lemma iteration_after_disconnect session_id messages ev later w :
  client_state (sock w) ≠ CONNECTED →
  iteration session_id messages ev later w
  = (Ok Break,
     set_log (λ l, l ++ [(ERROR, "Error receiving/parsing message")]) w).
Proof.
  intros Hc. unfold iteration. unfold bind at 1. unfold try_except.
  unfold bind at 1.
  destruct (receive_text_cases (incoming ev) (drops_after ev) w)
    as [[_ ->]|[(Hc' & _)|(Hc' & _)]]; [| done..].
  run. rewrite send_ws_message_spec. unfold sent. simpl.
  by rewrite bool_decide_eq_false_2.
Qed.

End Endings.

(** X18. Once the client has disconnected, the receive loop ends at its
    next pass: whatever steps remain in the script, nothing is delivered,
    nothing is stored and no upstream call is made. *)
Theorem nothing_is_served_after_disconnect
    (session_id : string) (messages : list Message) (script : list event)
    (w : world) :
  client_state (sock w) ≠ CONNECTED →
  ∃ w',
    receive_loop session_id messages script w = (Ok tt, w')
    ∧ delivered (sock w') = delivered (sock w)
    ∧ fs w' = fs w
    ∧ upstream_calls w' = upstream_calls w.
Proof.
  intros Hc. destruct script as [|ev later]; cbn [receive_loop];
    unfold bind at 1; rewrite iteration_after_disconnect by done;
    by eexists.
Qed.

Lemma nothing_is_served_after_disconnect_witness :
  ∃ w',
    receive_loop "s1" []
      [turn "hi" {| chunks := [fragment "Hello"]; failure := None |}]
      (set_sock (set_client_state DISCONNECTED) connected_world)
    = (Ok tt, w')
    ∧ delivered (sock w')
      = delivered (sock (set_sock (set_client_state DISCONNECTED)
                           connected_world))
    ∧ fs w' = fs (set_sock (set_client_state DISCONNECTED) connected_world)
    ∧ upstream_calls w'
      = upstream_calls (set_sock (set_client_state DISCONNECTED)
                          connected_world).
Proof.
  apply (nothing_is_served_after_disconnect "s1" []
           [turn "hi" {| chunks := [fragment "Hello"]; failure := None |}]
           (set_sock (set_client_state DISCONNECTED) connected_world)).
  discriminate.
Defined.

(** X19. A transcript in memory with a content that has no length (a
    number, say, read from the history file) makes the budgeter raise
    outside the [try] of the turn: the client is sent the critical-error
    envelope, no upstream call is made, nothing is stored, the socket is
    closed with code 1011 and the session is deregistered. *)
Theorem unsized_content_closes_the_session
    (session_id : string) (messages : list Message) (c : string) (ev : event)
    (later : list event) (w : world) :
  client_state (sock w) = CONNECTED →
  link (sock w) = None →
  drops_after ev = None →
  incoming ev = chat_frame c →
  c ≠ "" →
  forallb has_len messages = false →
  ∃ w',
    serve session_id messages (ev :: later) w = (Ok tt, w')
    ∧ delivered (sock w')
      = delivered (sock w)
        ++ [error_response
              "A critical server error occurred. Connection closing."]
    ∧ upstream_calls w' = upstream_calls w
    ∧ fs w' = fs w
    ∧ close_code (sock w') = Some 1011
    ∧ active_connections w' !! session_id = None.
Proof.
  intros Hc Hl Hdrop Hfr Hne Hlen. rewrite serve_spec.
  set (w0 := set_sock (schedule (drops_after ev)) w).
  assert (receive_loop session_id messages (ev :: later) w
          = (Raise TypeError, w0)) as ->.
  { cbn [receive_loop]. unfold bind at 1.
    rewrite (iteration_chat _ _ c) by (rewrite ?Hl; done).
    unfold chat_turn, _limit_context_by_chars.
    rewrite sum_content_len_raises; [done |].
    rewrite forallb_app, Hlen. done. }
  destruct (cleanup_spec session_id (caught TypeError w0))
    as (w' & Hclean & Hac & Hfs & Hdel & Hcalls & Hcode).
  rewrite Hclean. simpl. exists w'. split; [done |].
  rewrite Hdel, Hcalls, Hfs, Hcode, Hac. simpl.
  rewrite sent_fs, sent_upstream_calls, sent_client_state. simpl.
  rewrite Hc. split_and!; try done.
  - set (w1 := set_log _ _).
    destruct (sent_delivered
                (error_response
                   "A critical server error occurred. Connection closing.")
                w1 Hc) as [-> _].
    simpl. by rewrite Hdrop, Hl.
  - apply lookup_delete_eq.
Qed.

Lemma unsized_content_closes_the_session_witness :
  ∃ w',
    serve "s1" [{[ "role" := JStr "user"; "content" := JInt 5 ]}]
      [turn "hi" {| chunks := [fragment "Hello"]; failure := None |}]
      connected_world
    = (Ok tt, w')
    ∧ delivered (sock w')
      = delivered (sock connected_world)
        ++ [error_response
              "A critical server error occurred. Connection closing."]
    ∧ upstream_calls w' = upstream_calls connected_world
    ∧ fs w' = fs connected_world
    ∧ close_code (sock w') = Some 1011
    ∧ active_connections w' !! "s1" = None.
Proof.
  apply (unsized_content_closes_the_session "s1"
           [{[ "role" := JStr "user"; "content" := JInt 5 ]}] "hi"
           (turn "hi" {| chunks := [fragment "Hello"]; failure := None |})
           [] connected_world);
    [reflexivity | reflexivity | reflexivity | reflexivity | discriminate
    | reflexivity].
Defined.

(** X20. A session that is created and then connected to, and whose
    client disconnects without sending anything, leaves the empty
    transcript written by [create_session] in the store; nothing is
    delivered, no upstream call is made, and the session is no longer
    registered. *)
Theorem idle_session_keeps_its_empty_transcript
    (o : opening) (fresh_uuid : string) (w : world) :
  uuid_parses o = true →
  fs (websocket_endpoint o fresh_uuid []
        (create_session fresh_uuid WriteOk w).2).2 !! chat_path fresh_uuid
    = Some (JsonText (JArr []))
  ∧ delivered
      (sock (websocket_endpoint o fresh_uuid []
               (create_session fresh_uuid WriteOk w).2).2)
    = delivered (sock w)
  ∧ upstream_calls
      (websocket_endpoint o fresh_uuid []
         (create_session fresh_uuid WriteOk w).2).2
    = upstream_calls w
  ∧ active_connections
      (websocket_endpoint o fresh_uuid []
         (create_session fresh_uuid WriteOk w).2).2 !! fresh_uuid = None.
Proof.
  intros Huuid.
  assert (∃ w1, (create_session fresh_uuid WriteOk w).2 = w1
                ∧ fs w1 !! chat_path fresh_uuid = Some (JsonText (JArr []))
                ∧ delivered (sock w1) = delivered (sock w)
                ∧ upstream_calls w1 = upstream_calls w)
    as (w1 & -> & Hfile & Hdel & Hcalls).
  { unfold create_session. run. rewrite save_chat_history_spec. simpl.
    eexists. split_and!; try done. simpl. apply lookup_insert_eq. }
  assert (∃ w', (websocket_endpoint o fresh_uuid [] w1).2 = w'
                ∧ fs w' = fs w1
                ∧ delivered (sock w') = delivered (sock w1)
                ∧ upstream_calls w' = upstream_calls w1
                ∧ active_connections w' !! fresh_uuid = None)
    as (w' & -> & Hfs & Hdel' & Hcalls' & Hac).
  { destruct (accepted_session o fresh_uuid [] w1 Huuid)
      as (messages & w2 & -> & _ & Hfs2 & Hcalls2 & Hdel2 & Hc2 & _).
    rewrite serve_spec. cbn [receive_loop]. unfold bind at 1.
    rewrite iteration_disconnect by done. simpl.
    match goal with |- context [cleanup fresh_uuid ?w3] =>
      destruct (cleanup_spec fresh_uuid w3)
        as (w4 & -> & Hac4 & Hfs4 & Hdel4 & Hcalls4 & _)
    end.
    simpl. eexists. split; [done |].
    rewrite Hfs4, Hdel4, Hcalls4, Hac4. simpl.
    rewrite Hfs2, Hdel2, Hcalls2. split_and!; try done.
    apply lookup_delete_eq. }
  rewrite Hfs, Hdel', Hcalls'. by split_and!.
Qed.

Lemma idle_session_keeps_its_empty_transcript_witness :
  fs (websocket_endpoint {| uuid_parses := true; handle := 1; read := ReadOk |}
        "s1" [] (create_session "s1" WriteOk fresh_world).2).2 !! chat_path "s1"
  = Some (JsonText (JArr [])).
Proof.
  apply (idle_session_keeps_its_empty_transcript
           {| uuid_parses := true; handle := 1; read := ReadOk |} "s1"
           fresh_world).
  reflexivity.
Defined.

(** ** Upstream calls over a session *)

Section Calls.

Implicit Types (w : world) (messages : list Message) (ev : event).

Lemma calls_grow_unchanged {A} (m : M A) :
  within (unchanged upstream_calls) m → within calls_grow m.
Proof. intros Hm w. unfold calls_grow. by rewrite (Hm w). Qed.

Lemma calls_grow_bind {A B} (m : M A) (k : A → M B) :
  within calls_grow m → (∀ a, within calls_grow (k a)) →
  within calls_grow (bind m k).
Proof.
  intros Hm Hk w. unfold bind. specialize (Hm w).
  destruct (m w) as [[a|e] w1]; simpl in *; [|done].
  specialize (Hk a w1). unfold calls_grow in *. by etrans.
Qed.

Lemma stream_turn_calls_grow run to_send api :
  within calls_grow (stream_turn run to_send api).
Proof.
  unfold stream_turn. destruct (sum_len_content to_send).
  - apply calls_grow_bind; [|intros _; apply calls_grow_bind; [|intros _]].
    + apply calls_grow_unchanged. by apply logger_within.
    + intros w. unfold calls_grow. simpl. by apply prefix_app_r.
    + apply calls_grow_unchanged. frame;
        first [ by apply logger_within | by apply send_ws_message_within
              | by apply relay_within ].
  - apply calls_grow_unchanged. frame.
Qed.

Lemma chat_turn_calls_grow session_id messages c ev later :
  within calls_grow (chat_turn session_id messages c ev later).
Proof.
  unfold chat_turn. apply calls_grow_bind; [apply calls_grow_unchanged; frame |].
  intros to_send. apply calls_grow_bind; [apply stream_turn_calls_grow |].
  intros [buffer raised]. apply calls_grow_unchanged.
  frame;
    first [ by apply upstream_failed_within | by apply save_chat_history_within
          | by apply iter_json_within | by apply logger_within ].
Qed.

Lemma iteration_calls_grow session_id messages ev later :
  within calls_grow (iteration session_id messages ev later).
Proof.
  unfold iteration. apply calls_grow_bind.
  - apply calls_grow_unchanged. frame;
      first [ by apply receive_text_within | by apply logger_within
            | by apply send_ws_message_within ].
  - intros [ctl|req]; [apply calls_grow_unchanged; frame |].
    destruct (request_content req) as [content|];
      [|apply calls_grow_unchanged; frame].
    destruct (_ && _); [apply chat_turn_calls_grow |].
    apply calls_grow_unchanged; frame.
Qed.

Lemma receive_loop_calls_grow session_id script : ∀ messages,
  within calls_grow (receive_loop session_id messages script).
Proof.
  induction script as [|ev later IH]; intros messages; cbn [receive_loop];
    (apply calls_grow_bind; [apply iteration_calls_grow |]).
  - intros _. apply calls_grow_unchanged. frame.
  - intros [messages'|]; [apply IH |]. apply calls_grow_unchanged. frame.
Qed.

End Calls.

(** X21. A connection resumes the stored transcript: when the session's
    record can be read and its contents are strings, the first chat
    message of a new connection makes an upstream call that carries the
    system message, then the whole stored transcript, then the new user
    message; the calls made before it are kept, and calls for later
    messages follow it. *)
Theorem connection_resumes_stored_transcript
    (o : opening) (session_id : string) (c : string) (ev : event)
    (later : list event) (w : world) :
  uuid_parses o = true →
  read o = ReadOk →
  forallb text_message (persisted session_id w) = true →
  link (sock w) ≠ Some O →
  incoming ev = chat_frame c →
  c ≠ "" →
  ∃ more,
    upstream_calls (websocket_endpoint o session_id (ev :: later) w).2
    = upstream_calls w
      ++ [system_message (system_prompt_at (now ev))
          :: persisted session_id w ++ [user_message c]]
      ++ more.
Proof.
  intros Huuid Hread Htext Hl Hfr Hne.
  destruct (accepted_session o session_id (ev :: later) w Huuid)
    as (messages & w1 & -> & _ & _ & Hcalls & _ & Hc1 & Hl1 & Hload).
  rewrite Hread in Hload.
  destruct (load_chat_history_readable session_id w) as (w0 & Hrun & _).
  rewrite Hrun in Hload. injection Hload as <-.
  rewrite serve_spec. cbn [snd].
  destruct (cleanup_spec session_id
              match receive_loop session_id (persisted session_id w)
                      (ev :: later) w1 with
              | (Ok _, w2) => w2
              | (Raise e, w2) => caught e w2
              end) as (w3 & Hclean & _ & _ & _ & Hcalls3 & _).
  rewrite Hclean. cbn [snd]. rewrite Hcalls3. clear Hclean Hcalls3.
  assert (∃ more,
    upstream_calls (receive_loop session_id (persisted session_id w)
                      (ev :: later) w1).2
    = upstream_calls w
      ++ [system_message (system_prompt_at (now ev))
          :: persisted session_id w ++ [user_message c]]
      ++ more) as [more Hloop].
  { cbn [receive_loop]. unfold bind at 1.
    rewrite (iteration_chat _ _ c) by (rewrite ?Hl1; done).
    pose proof (chat_turn_upstream_call session_id (persisted session_id w) c
                  ev (incoming <$> later)
                  (set_sock (schedule (drops_after ev)) w1) Htext) as Hturn.
    destruct (chat_turn _ _ _ _ _ _) as [[[messages'|]|e] w2];
      simpl in Hturn; rewrite Hcalls in Hturn; simpl;
      [| exists []; by rewrite Hturn..].
    destruct (receive_loop_calls_grow session_id later messages' w2)
      as [more Hmore].
    exists more. by rewrite Hmore, Hturn, <- app_assoc. }
  exists more.
  destruct (receive_loop _ _ _ _) as [[[]|e] w2]; simpl in *; [done |].
  by destruct (caught_frame e w2) as (_ & _ & ->).
Qed.

Lemma connection_resumes_stored_transcript_witness :
  ∃ more,
    upstream_calls
      (websocket_endpoint {| uuid_parses := true; handle := 1; read := ReadOk |}
         "s1"
         [turn "more" {| chunks := [fragment "Sure"]; failure := None |}]
         (saved WriteOk "s1" [user_message "hi"; assistant_message "Hello"]
            fresh_world)).2
    = upstream_calls
        (saved WriteOk "s1" [user_message "hi"; assistant_message "Hello"]
           fresh_world)
      ++ [system_message (system_prompt_at "2025-01-01 00:00:00 UTC")
          :: persisted "s1"
               (saved WriteOk "s1"
                  [user_message "hi"; assistant_message "Hello"] fresh_world)
             ++ [user_message "more"]]
      ++ more.
Proof.
  apply (connection_resumes_stored_transcript
           {| uuid_parses := true; handle := 1; read := ReadOk |} "s1" "more"
           (turn "more" {| chunks := [fragment "Sure"]; failure := None |}) []
           (saved WriteOk "s1" [user_message "hi"; assistant_message "Hello"]
              fresh_world));
    [reflexivity | reflexivity | | discriminate | reflexivity | discriminate].
  vm_compute. reflexivity.
Defined.

(** ** The manual snapshot *)

Section Snapshot.

Implicit Types (w : world) (session_id timestamp : string).

(** The snapshot of a session is never the session's own file. *)
Lemma snapshot_path_not_chat_path session_id timestamp :
  snapshot_path session_id timestamp ≠ chat_path session_id.
Proof.
  intros Heq. apply (f_equal String.length) in Heq.
  unfold snapshot_path, snapshot_filename, chat_path, SAVED_CHATS_DIR,
    SAVED_CHATS_SUBDIR, CHAT_DIR in Heq.
  simpl in Heq. rewrite !string_length_app in Heq. simpl in Heq. lia.
Qed.

Lemma copy2_other src dst files path :
  path ≠ dst → copy2 src dst files !! path = files !! path.
Proof.
  intros Hne. unfold copy2. destruct (files !! src); [|done].
  by rewrite lookup_insert_ne.
Qed.

(** The snapshot endpoint writes to no file but the snapshot. *)
Lemma snapshot_frame uuid_ok timestamp io session_id w path :
  path ≠ snapshot_path session_id timestamp →
  fs (save_chat_session_manually uuid_ok timestamp io session_id w).2 !! path
  = fs w !! path.
Proof.
  intros Hpath. unfold save_chat_session_manually. run.
  destruct uuid_ok; simpl; [|done].
  destruct (bool_decide (is_Some (fs w !! chat_path session_id))); simpl;
    [|done].
  destruct io as [| |e [data|]]; run; simpl.
  - by apply copy2_other.
  - done.
  - destruct e; run; simpl; by rewrite lookup_insert_ne.
  - by destruct e.
Qed.

End Snapshot.

(** X22. A snapshot of an existing record that goes through answers with
    the name of the new file, which then holds what the session's record
    holds; the record itself and every other file are as before. *)
Theorem snapshot_copies_the_record
    (timestamp session_id : string) (data : wire) (w : world) :
  fs w !! chat_path session_id = Some data →
  ∃ w',
    save_chat_session_manually true timestamp CopyOk session_id w
    = (Ok {[ "message" := JStr "Chat history saved successfully.";
             "filename" := JStr (snapshot_filename session_id timestamp) ]},
       w')
    ∧ fs w' !! snapshot_path session_id timestamp = Some data
    ∧ fs w' !! chat_path session_id = Some data
    ∧ ∀ path, path ≠ snapshot_path session_id timestamp →
        fs w' !! path = fs w !! path.
Proof.
  intros Hfile.
  pose proof (snapshot_frame true timestamp CopyOk session_id w) as Hframe.
  revert Hframe. unfold save_chat_session_manually. run. simpl.
  rewrite Hfile. simpl. intros Hframe. eexists. split; [done |]. simpl.
  split_and!.
  - unfold copy2. rewrite Hfile. apply lookup_insert_eq.
  - rewrite <- Hfile. apply Hframe. apply not_eq_sym.
    apply snapshot_path_not_chat_path.
  - exact Hframe.
Qed.

Lemma snapshot_copies_the_record_witness :
  ∃ w',
    save_chat_session_manually true "20250101_000000" CopyOk "s1"
      (set_fs (<[chat_path "s1" := JsonText (JArr [])]>) fresh_world)
    = (Ok {[ "message" := JStr "Chat history saved successfully.";
             "filename" := JStr (snapshot_filename "s1" "20250101_000000") ]},
       w')
    ∧ fs w' !! snapshot_path "s1" "20250101_000000"
      = Some (JsonText (JArr []))
    ∧ fs w' !! chat_path "s1" = Some (JsonText (JArr []))
    ∧ ∀ path, path ≠ snapshot_path "s1" "20250101_000000" →
        fs w' !! path
        = fs (set_fs (<[chat_path "s1" := JsonText (JArr [])]>) fresh_world)
            !! path.
Proof.
  apply (snapshot_copies_the_record "20250101_000000" "s1"
           (JsonText (JArr []))
           (set_fs (<[chat_path "s1" := JsonText (JArr [])]>) fresh_world)).
  reflexivity.
Defined.

(** X23. The snapshot endpoint never changes the record it copies:
    however the request ends (refused, copied, or failed on the way), the
    session's own file, and every file other than the snapshot, is what
    it was. *)
Theorem snapshot_never_changes_the_original
    (uuid_ok : bool) (timestamp : string) (io : copy_outcome)
    (session_id : string) (w : world) :
  fs (save_chat_session_manually uuid_ok timestamp io session_id w).2
    !! chat_path session_id
  = fs w !! chat_path session_id
  ∧ ∀ path, path ≠ snapshot_path session_id timestamp →
      fs (save_chat_session_manually uuid_ok timestamp io session_id w).2
        !! path
      = fs w !! path.
Proof.
  split.
  - apply snapshot_frame, not_eq_sym, snapshot_path_not_chat_path.
  - intros path. apply snapshot_frame.
Qed.


